(** * React-JS-Interview-Topics: the snippets that carry logic of their own

    The repository is a set of study notes on React.  Most snippets only call
    the framework, but a few define plain JavaScript logic: the [EventEmitter]
    class and its exported instance [globalEmitter], the [Subject] and
    [PubSub] classes, the counter [reducer] (defined twice), the context
    selector [useUserName], and the components that receive a [props] object.
    This file embeds those definitions and states what holds of them.  It
    then does the same for more of the snippets: the [Mediator] class, the
    counters and the toggle, [fib], the filter of [List], the keys of
    [BadList] and [GoodList], the profile reducer, the Redux and context
    selectors, the guarded reads and the prop-drilling chain.

    JavaScript data is modelled as the code has it:
    - values are a small universe of JavaScript values ([JS.value]);
    - a call either returns or throws ([JS.outcome]);
    - a Number holding an integer is that integer, and [+] and [-] on such
      Numbers are IEEE-754 binary64 operations ([JS.number_arith]);
    - a plain object used as a dictionary ([this.events = {}]) is a finite map
      of its own properties, looked up with the fallback to [Object.prototype]
      that JavaScript performs ([JS.index]). *)

From Stdlib Require Import ZArith Lia List DecimalString.
From Corelib Require Import SpecFloat.
From stdpp Require Import base strings gmap list.

Module JS.

(** ** Values and completions *)

(** The JavaScript values the modelled snippets handle.  Functions are not
    part of this universe: callbacks are modelled separately ([callback]). *)
#[warnings="-register-all"]
Inductive value : Type :=
| VUndefined
| VNull
| VBool (b : bool)
| VNum (n : Z)          (* a Number whose value is the integer [n] *)
| VStr (s : string)
| VObject (fields : list (string * value))
| VArray (items : list value).

(** What a [throw] carries: the [TypeError] the runtime raises, or a value
    thrown by user code. *)
Inductive error : Type :=
| TypeError
| Thrown (v : value).

(** A call either returns a value or throws. *)
Inductive outcome (A : Type) : Type :=
| Returns (a : A)
| Throws (e : error).
Arguments Returns {A} a.
Arguments Throws {A} e.

#[global] Instance outcome_ret : MRet outcome := fun A a => Returns a.
#[global] Instance outcome_bind : MBind outcome := fun A B f m =>
  match m with
  | Returns a => f a
  | Throws e => Throws e
  end.

Definition returns {A} (o : outcome A) : bool :=
  match o with Returns _ => true | Throws _ => false end.

(** A JavaScript function of one argument, as its caller sees it: called with
    a value, it returns or throws.  A callback is handed its argument and
    nothing else: a callback that calls back into the object that invokes it
    ([on], [subscribe], [register]), or that edits that object's listeners
    directly, is outside the model: what is stated below about an object
    that runs callbacks is stated for callbacks that do neither. *)
Definition callback : Type := value -> outcome value.

(** ** Property access *)

(** The string-keyed properties every plain object inherits from
    [Object.prototype] (ECMAScript, with the Annex B accessors that browsers
    and Node define).  All of them hold a function, except [__proto__] whose
    getter yields [Object.prototype] itself: every one is truthy, and none is
    an array. *)
Definition object_prototype_keys : list string :=
  [ "constructor"; "hasOwnProperty"; "isPrototypeOf"; "propertyIsEnumerable";
    "toLocaleString"; "toString"; "valueOf"; "__proto__";
    "__defineGetter__"; "__defineSetter__"; "__lookupGetter__";
    "__lookupSetter__" ]%string.

Definition inherited (k : string) : bool :=
  bool_decide (k ∈ object_prototype_keys).

(** [o[k]] on a plain object [o] used as a dictionary with values in [A]:
    an own property, a property found on [Object.prototype], or [undefined]. *)
Inductive slot (A : Type) : Type :=
| Own (a : A)
| Inherited
| Absent.
Arguments Own {A} a.
Arguments Inherited {A}.
Arguments Absent {A}.

Definition index {A} (o : gmap string A) (k : string) : slot A :=
  match o !! k with
  | Some a => Own a
  | None => if inherited k then Inherited else Absent
  end.

(** Truthiness of [o[k]] when the own properties of [o] are arrays: arrays
    (even empty ones) and the built-ins of [Object.prototype] are truthy,
    [undefined] is not. *)
Definition truthy {A} (s : slot A) : bool :=
  match s with
  | Absent => false
  | _ => true
  end.

Fixpoint own_property (fields : list (string * value)) (k : string)
  : option value :=
  match fields with
  | [] => None
  | (k', v) :: rest => if String.eqb k' k then Some v else own_property rest k
  end.

(** [v.k] for a literal key [k] that no built-in prototype defines (the
    snippets read [name], [message], [items], [id], [user], [count] and
    [type]): reading a property of [undefined] or [null] throws a TypeError,
    an object yields its own property or [undefined], every other value
    yields [undefined]. *)
Definition get_property (v : value) (k : string) : outcome value :=
  match v with
  | VUndefined | VNull => Throws TypeError
  | VObject fields =>
      Returns (match own_property fields k with Some x => x | None => VUndefined end)
  | _ => Returns VUndefined
  end.

(** [v === "s"] for a string literal [s]. *)
Definition is_string (v : value) (s : string) : bool :=
  match v with
  | VStr s' => String.eqb s' s
  | _ => false
  end.

(** ** Numbers *)

(** JavaScript Numbers are IEEE-754 binary64.  The model keeps the Numbers
    whose value is an integer, as that integer, and computes [+] and [-] with
    the Standard Library's specification of binary64 arithmetic
    ([SpecFloat], precision 53, maximal exponent 1024: round to nearest,
    ties to even). *)
Definition double_of_Z (z : Z) : spec_float :=
  binary_normalize 53 1024 z 0 false.

Definition Z_of_double (x : spec_float) : option Z :=
  match x with
  | S754_zero _ => Some 0%Z
  | S754_finite s m e =>
      if (0 <=? e)%Z then Some (cond_Zopp s (Z.pos m) * 2 ^ e)%Z
      else if (Z.pos m mod 2 ^ (- e) =? 0)%Z
           then Some (cond_Zopp s (Z.pos m) / 2 ^ (- e))%Z
           else None
  | _ => None
  end.

(** The integers a Number can hold exactly. *)
Definition representable (z : Z) : bool :=
  match Z_of_double (double_of_Z z) with
  | Some r => (r =? z)%Z
  | None => false
  end.

(** [Number.isSafeInteger]. *)
Definition safe_integer (z : Z) : bool :=
  (Z.abs z <=? 2 ^ 53 - 1)%Z.

(** The integers from [- 2 ^ 53] up to [2 ^ 53 - 1]: every safe integer, and
    [- 2 ^ 53]. *)
Definition below_2_53 (z : Z) : bool :=
  (- 2 ^ 53 <=? z)%Z && (z <? 2 ^ 53)%Z.

Inductive binop : Type := Plus | Minus.

(** [a + b] and [a - b] on integer Numbers; [None] when the result is not a
    finite integer. *)
Definition number_arith (op : binop) (a b : Z) : option Z :=
  Z_of_double
    match op with
    | Plus => SFadd 53 1024 (double_of_Z a) (double_of_Z b)
    | Minus => SFsub 53 1024 (double_of_Z a) (double_of_Z b)
    end.

(** What [+] and [-] do when an operand is not an integer Number, or when the
    result is not one: string concatenation, [ToNumber], [NaN], infinities.
    The snippets define none of it, so it is a parameter of the model. *)
Class Coercions : Type :=
  coerce : binop -> value -> value -> outcome value.

Definition arith `{Coercions} (op : binop) (v w : value) : outcome value :=
  match v, w with
  | VNum a, VNum b =>
      match number_arith op a b with
      | Some r => Returns (VNum r)
      | None => coerce op v w
      end
  | _, _ => coerce op v w
  end.

(** The canonical binary64 encoding of the integer [c] or [- c], for
    [1 <= c <= 2 ^ 53]: a significand of exactly 53 bits and the matching
    exponent. *)
Definition significand (c : Z) : Z := (c * 2 ^ 52 / 2 ^ Z.log2 c)%Z.

Definition encode (s : bool) (c : Z) : spec_float :=
  S754_finite s (Z.to_pos (significand c)) (Z.log2 c - 52).

(** ** Calling back *)

(** One invocation of a callback: which one, with which argument. *)
Record call : Type := { callee : callback; argument : value }.

(** [listeners.forEach((callback) => callback(data))]: [Array.prototype.forEach]
    calls the callbacks in index order; an exception thrown by one of them ends the loop
    and propagates.  The second component lists the invocations made. *)
Fixpoint forEach (listeners : list callback) (data : value)
  : outcome unit * list call :=
  match listeners with
  | [] => (Returns tt, [])
  | callback :: rest =>
      match callback data with
      | Returns _ =>
          let '(o, calls) := forEach rest data in
          (o, {| callee := callback; argument := data |} :: calls)
      | Throws e => (Throws e, [{| callee := callback; argument := data |}])
      end
  end.

(** The callbacks such a loop reaches: every one up to and including the
    first that throws. *)
Fixpoint reached (listeners : list callback) (data : value) : list callback :=
  match listeners with
  | [] => []
  | callback :: rest =>
      match callback data with
      | Returns _ => callback :: reached rest data
      | Throws _ => [callback]
      end
  end.

End JS.

Import JS.

(** * src/2Component-Communication/2Callback-Functions-(Child-Parent).js *)

Module EventEmitter.

(** An instance: its only field is [this.events], a plain object whose own
    properties are arrays of callbacks. *)
Record t : Type := { events : gmap string (list callback) }.

(** [constructor() { this.events = {}; }] *)
Definition new : t := {| events := ∅ |}.

(** [[
  on(event, callback) {
    if (!this.events[event]) this.events[event] = [];
    this.events[event].push(callback);
  }
]]
    Returns the completion and the instance after the call.  A built-in
    found on [Object.prototype] has no [push], so calling it throws. *)
Definition on (event : string) (callback : callback) (this : t)
  : outcome unit * t :=
  let this' :=
    if truthy (index (events this) event) then this
    else {| events := <[event := []]> (events this) |} in
  match index (events this') event with
  | Own listeners =>
      (Returns tt, {| events := <[event := listeners ++ [callback]]> (events this') |})
  | _ => (Throws TypeError, this')
  end.

(** [[
  emit(event, data) {
    if (this.events[event]) {
      this.events[event].forEach((callback) => callback(data));
    }
  }
]]
    Returns the completion, the invocations made, and the instance after the
    call.  A built-in found on [Object.prototype] is truthy and has no
    [forEach]. *)
Definition emit (event : string) (data : value) (this : t)
  : outcome unit * list call * t :=
  match index (events this) event with
  | Own listeners =>
      let '(o, calls) := forEach listeners data in (o, calls, this)
  | Inherited => (Throws TypeError, [], this)
  | Absent => (Returns tt, [], this)
  end.

Definition invoked (r : outcome unit * list call * t) : list call := r.1.2.
Definition after (r : outcome unit * list call * t) : t := r.2.

(** The calls a client makes on an instance. *)
Inductive step : Type :=
| On (event : string) (callback : callback)
| Emit (event : string) (data : value).

(** One call made on an instance: the instance after it, and the
    registration it made, if it was a call of [on] that returned. *)
Definition apply (s : step) (this : t) : t * list (string * callback) :=
  match s with
  | On event callback =>
      match on event callback this with
      | (Returns _, this') => (this', [(event, callback)])
      | (Throws _, this') => (this', [])
      end
  | Emit event data => (after (emit event data this), [])
  end.

(** A history of calls, oldest first, started from the instance and the
    registrations in [st]: the instance it leaves, and every registration
    that returned, in the order they were made. *)
Fixpoint run (steps : list step) (st : t * list (string * callback))
  : t * list (string * callback) :=
  match steps with
  | [] => st
  | s :: rest =>
      let '(this', regs') := apply s st.1 in
      run rest (this', st.2 ++ regs')
  end.

(** The callbacks that a sequence of registrations gave for [event], in
    registration order. *)
Definition registered (event : string) (regs : list (string * callback))
  : list callback :=
  map snd (filter (fun r => String.eqb (fst r) event) regs).

(** The listeners stored for [event] as an own property. *)
Definition listeners (this : t) (event : string) : list callback :=
  default [] (events this !! event).

(** What the instance stores is what the history registered: an event has an
    own property exactly when some registration for it returned, the property
    lists those callbacks in order, and no name of [Object.prototype] was ever
    registered. *)
Definition consistent (st : t * list (string * callback)) : Prop :=
  forall event,
    events st.1 !! event =
      (match registered event st.2 with [] => None | l => Some l end)
    /\ (inherited event = true -> registered event st.2 = []).


End EventEmitter.

Module CallbackFunctions.

(** [export const globalEmitter = new EventEmitter();]  The binding is
    created once at module load; the components below share it.  Each
    operation takes the current state of that object and returns its state
    after the call. *)
Definition globalEmitter : EventEmitter.t := EventEmitter.new.

(** [Sender]: [const sendMessage = () => { globalEmitter.emit("newMessage",
    "Hello from Sender!"); };] *)
Definition Sender_sendMessage (emitter : EventEmitter.t) :=
  EventEmitter.emit "newMessage" (VStr "Hello from Sender!") emitter.

(** [Receiver]: the effect [globalEmitter.on("newMessage", (data) =>
    setMsg(data))], where [setMsg] is the setter [useState] gave the
    component. *)
Definition Receiver_effect (setMsg : callback) (emitter : EventEmitter.t) :=
  EventEmitter.on "newMessage" (fun data => setMsg data) emitter.

(** [useEvent(eventName, handler)]: the effect
    [globalEmitter.on(eventName, handler)]. *)
Definition useEvent_effect (eventName : string) (handler : callback)
    (emitter : EventEmitter.t) :=
  EventEmitter.on eventName handler emitter.

End CallbackFunctions.

(** * src/2Component-Communication/9Advanced-Patterns.js *)

Module AdvancedPatterns.

(** [const UserContext = createContext(null);]: what [useContext] yields
    when no provider is mounted above the component. *)
Definition UserContext_default : value := VNull.

(** [useContext(UserContext)]: the value of the nearest provider, or the
    default. *)
Definition useContext (provider : option value) : value :=
  match provider with
  | Some v => v
  | None => UserContext_default
  end.

(** The state [UserProvider] starts with. *)
Definition initial_user : value :=
  VObject [("name", VStr "Avi"); ("age", VNum 25); ("theme", VStr "dark")]%string.

(** [useMemo(() => ({ user, setUser }), [user])]: the value [UserProvider]
    passes down.  [setUser] is the setter of [useState]; the selectors never
    read it. *)
Definition UserProvider_value (user setUser : value) : value :=
  VObject [("user", user); ("setUser", setUser)]%string.

(** [[
export const useUserName = () => {
  const { user } = useContext(UserContext);
  return user.name; // only name
};
]] *)
Definition useUserName (provider : option value) : outcome value :=
  user ← get_property (useContext provider) "user";
  get_property user "name".

(** [[
export const useUserTheme = () => {
  const { user } = useContext(UserContext);
  return user.theme; // only theme
};
]] *)
Definition useUserTheme (provider : option value) : outcome value :=
  user ← get_property (useContext provider) "user";
  get_property user "theme".

End AdvancedPatterns.

(** The classes of the first note of the same file. *)

Module Subject.

(** [constructor() { this.observers = []; }] *)
Record t : Type := { observers : list callback }.

Definition new : t := {| observers := [] |}.

(** [subscribe(observer) { this.observers.push(observer); }] *)
Definition subscribe (observer : callback) (this : t) : t :=
  {| observers := observers this ++ [observer] |}.

(** [notify(data) { this.observers.forEach((observer) => observer(data)); }] *)
Definition notify (data : value) (this : t) : outcome unit * list call * t :=
  let '(o, calls) := forEach (observers this) data in (o, calls, this).

End Subject.

Module PubSub.

(** [constructor() { this.events = {}; }] *)
Record t : Type := { events : gmap string (list callback) }.

Definition new : t := {| events := ∅ |}.

(** [[
  subscribe(event, handler) {
    if (!this.events[event]) this.events[event] = [];
    this.events[event].push(handler);
  }
]] *)
Definition subscribe (event : string) (handler : callback) (this : t)
  : outcome unit * t :=
  let this' :=
    if truthy (index (events this) event) then this
    else {| events := <[event := []]> (events this) |} in
  match index (events this') event with
  | Own handlers =>
      (Returns tt, {| events := <[event := handlers ++ [handler]]> (events this') |})
  | _ => (Throws TypeError, this')
  end.

(** [[
  publish(event, data) {
    if (this.events[event]) {
      this.events[event].forEach((handler) => handler(data));
    }
  }
]] *)
Definition publish (event : string) (data : value) (this : t)
  : outcome unit * list call * t :=
  match index (events this) event with
  | Own handlers =>
      let '(o, calls) := forEach handlers data in (o, calls, this)
  | Inherited => (Throws TypeError, [], this)
  | Absent => (Returns tt, [], this)
  end.

End PubSub.

(** The [EventEmitter] that stores what a [PubSub] stores. *)
Definition PubSub_as_emitter (this : PubSub.t) : EventEmitter.t :=
  {| EventEmitter.events := PubSub.events this |}.

(** * src/5Rendering-And-Performance/7Profiling-With-React-DevTools-Profiler-And-Flamegraphs.js *)

Module Resource.

(** The variable [status] of [fetchUser]: only these three strings are ever
    assigned to it. *)
Inductive status : Type := Pending | Success | Failed.

(** The variables that the closure returned by [fetchUser] captures. *)
Record t : Type := { current : status; result : value }.

(** [let status = "pending"; let result;] *)
Definition initial : t := {| current := Pending; result := VUndefined |}.

(** [(data) => { status = "success"; result = data; }] *)
Definition fulfilled (data : value) (this : t) : t :=
  {| current := Success; result := data |}.

(** [(err) => { status = "error"; result = err; }] *)
Definition rejected (err : value) (this : t) : t :=
  {| current := Failed; result := err |}.

(** [[
    read() {
      if (status === "pending") throw suspender;
      if (status === "error") throw result;
      if (status === "success") return result;
    },
]]
    [suspender] is the promise that [fetchUser] built. *)
Definition read (suspender : value) (this : t) : outcome value :=
  match current this with
  | Pending => Throws (Thrown suspender)
  | Failed => Throws (Thrown (result this))
  | Success => Returns (result this)
  end.

End Resource.

(** * The counter reducers *)

(** [{ type: t }] *)
Definition action_of (t : string) : value := VObject [("type"%string, VStr t)].

(** src/3State-And-LifeCycles/1UseState-UseReducer–When-To-Use-Which.js *)
Module UseStateUseReducer.

(** [const initialState = { count: 0 };] *)
Definition initialState : value := VObject [("count"%string, VNum 0)].

(** [[
function reducer(state, action) {
  switch (action.type) {
    case "increment":
      return { count: state.count + 1 };
    case "decrement":
      return { count: state.count - 1 };
    case "reset":
      return { count: 0 };
    default:
      return state;
  }
}
]] *)
Definition reducer `{Coercions} (state action : value) : outcome value :=
  type ← get_property action "type";
  if is_string type "increment" then
    count ← get_property state "count";
    n ← arith Plus count (VNum 1);
    mret (VObject [("count"%string, n)])
  else if is_string type "decrement" then
    count ← get_property state "count";
    n ← arith Minus count (VNum 1);
    mret (VObject [("count"%string, n)])
  else if is_string type "reset" then
    mret (VObject [("count"%string, VNum 0)])
  else
    mret state.

(** [dispatch({ type: "increment" })] then [dispatch({ type: "decrement" })],
    and the [count] of the state that results. *)
Definition increment_then_decrement `{Coercions} (state : value) : outcome value :=
  s1 ← reducer state (action_of "increment");
  s2 ← reducer s1 (action_of "decrement");
  get_property s2 "count".

End UseStateUseReducer.

(** src/unnamed/part_004 *)
Module UseReducerVsUseState.

(** The [reducer] declared inside [CounterWithReducer], next to
    [const initialState = { count: 0 };]. *)
Definition initialState : value := VObject [("count"%string, VNum 0)].

Definition reducer `{Coercions} (state action : value) : outcome value :=
  type ← get_property action "type";
  if is_string type "increment" then
    count ← get_property state "count";
    n ← arith Plus count (VNum 1);
    mret (VObject [("count"%string, n)])
  else if is_string type "decrement" then
    count ← get_property state "count";
    n ← arith Minus count (VNum 1);
    mret (VObject [("count"%string, n)])
  else if is_string type "reset" then
    mret (VObject [("count"%string, VNum 0)])
  else
    mret state.

End UseReducerVsUseState.

(** * Components that receive a [props] object *)

Module Component.

(** What a component returns: the tree that JSX, or [React.createElement],
    builds.  [<h1>Hello, {props.name}</h1>] and
    [React.createElement("h1", null, "Hello, ", props.name)] are the same
    tree. *)
#[warnings="-register-all"]
Inductive node : Type :=
| Text (s : string)
| Expr (v : value)
| Element (type : string) (attributes : list (string * value))
    (children : list node)
| Nodes (items : list node).

(** A component body runs against the [props] object it was called with:
    it returns or throws, and leaves the object in some state. *)
Definition render (A : Type) : Type := value -> outcome A * value.

#[global] Instance render_ret : MRet render := fun A a props => (Returns a, props).
#[global] Instance render_bind : MBind render := fun A B f m props =>
  match m props with
  | (Returns a, props') => f a props'
  | (Throws e, props') => (Throws e, props')
  end.

(** [props.k] *)
Definition read (k : string) : render value :=
  fun props => (get_property props k, props).

(** A computation that does not involve [props]. *)
Definition lift {A} (o : outcome A) : render A := fun props => (o, props).

(** A component declared with a destructuring parameter,
    [({ k1, ..., kn }) => body]: the call reads the listed properties off the
    props object (which throws on [undefined] and [null]) and runs the body
    on their values; the body holds no reference to the object. *)
Definition destructured {A} (keys : list string)
    (component_body : list value -> outcome A) : render A :=
  fun props =>
    match props with
    | VUndefined | VNull => (Throws TypeError, props)
    | _ =>
        (component_body
           (map (fun k => match get_property props k with
                          | Returns v => v
                          | Throws _ => VUndefined
                          end) keys),
         props)
    end.

(** [items.map(f)]: [Array.prototype.map] calls [f] on each element in index
    order and collects the results; a value that is not an array has no
    [map] method, and [undefined] and [null] have no properties at all. *)
Fixpoint map_elements {A} (f : value -> outcome A) (items : list value)
  : outcome (list A) :=
  match items with
  | [] => Returns []
  | item :: rest =>
      a ← f item;
      l ← map_elements f rest;
      mret (a :: l)
  end.

Definition array_map {A} (f : value -> outcome A) (v : value) : outcome (list A) :=
  match v with
  | VArray items => map_elements f items
  | _ => Throws TypeError
  end.

(** src/1React-Fundamentals/4Props-Vs-State-Immutability-Data-Flow.js:
    [function Welcome(props) { return <h1>Hello, {props.name}</h1>; }] *)
Definition Welcome : render node :=
  name ← read "name";
  mret (Element "h1" [] [Text "Hello, "; Expr name]).

(** The same file:
    [function Child(props) { return <p>Message from parent: {props.message}</p>; }] *)
Definition Child : render node :=
  message ← read "message";
  mret (Element "p" [] [Text "Message from parent: "; Expr message]).

(** src/1React-Fundamentals/3Class-Component-Vs-Functional-Component.js:
    [function GreetingFunctional(props) { return <h1>Hello, {props.name}</h1>; }] *)
Definition GreetingFunctional : render node :=
  name ← read "name";
  mret (Element "h1" [] [Text "Hello, "; Expr name]).

(** src/1React-Fundamentals/7Keys-In-Lists-Why-Important-Impact-On-Reconciliation.js:
    [function Welcome(props) { return <h1>Hello, {props.name}</h1>; }] *)
Definition Welcome_JSX : render node :=
  name ← read "name";
  mret (Element "h1" [] [Text "Hello, "; Expr name]).

(** The same file: [function WelcomeBabel(props) {
    return React.createElement("h1", null, "Hello, ", props.name); }] *)
Definition WelcomeBabel : render node :=
  name ← read "name";
  mret (Element "h1" [] [Text "Hello, "; Expr name]).

(** src/unnamed/part_000:
[[
function ItemList(props) {
  return (
    <ul>
      {props.items.map((item) => (
        <li key={item.id}>{item.name}</li>
      ))}
    </ul>
  );
}
]] *)
Definition ItemList : render node :=
  items ← read "items";
  lis ← lift (array_map (fun item =>
                 id ← get_property item "id";
                 name ← get_property item "name";
                 mret (Element "li" [("key"%string, id)] [Expr name])) items);
  mret (Element "ul" [] [Nodes lis]).

(** src/2Component-Communication/1Passing-Props-(Parent-Child).js, a
    component of the destructuring kind:
[[
const Profile = ({ user }) => {
  return (
    <div>
      <h2>{user.name}</h2>
      <p>Age: {user.age}</p>
    </div>
  );
};
]] *)
Definition Profile : render node :=
  destructured ["user"]%string (fun values =>
    let user := nth 0 values VUndefined in
    name ← get_property user "name";
    age ← get_property user "age";
    mret (Element "div" []
            [Element "h2" [] [Expr name];
             Element "p" [] [Text "Age: "; Expr age]])).

(** The function components of the repository whose parameter is the
    [props] object itself. *)
Inductive component : Type :=
| CWelcome
| CChild
| CGreetingFunctional
| CWelcome_JSX
| CWelcomeBabel
| CItemList.

Definition body (c : component) : render node :=
  match c with
  | CWelcome => Welcome
  | CChild => Child
  | CGreetingFunctional => GreetingFunctional
  | CWelcome_JSX => Welcome_JSX
  | CWelcomeBabel => WelcomeBabel
  | CItemList => ItemList
  end.

End Component.

(** * More of JavaScript *)

(** [a <= b] on integer Numbers: the IEEE-754 comparison. *)
Definition number_le (a b : Z) : bool :=
  SFleb (double_of_Z a) (double_of_Z b).

Definition nullish (v : value) : bool :=
  match v with
  | VUndefined | VNull => true
  | _ => false
  end.

(** [v.k] for a value [v] that is neither [undefined] nor [null], and a key
    [k] as for [get_property]. *)
Definition field (v : value) (k : string) : value :=
  match v with
  | VObject fields => default VUndefined (own_property fields k)
  | _ => VUndefined
  end.

(** Truthiness of a value: what [v ? a : b] and [!v] test. *)
Definition truthy_value (v : value) : bool :=
  match v with
  | VUndefined | VNull => false
  | VBool b => b
  | VNum n => negb (n =? 0)%Z
  | VStr s => negb (String.eqb s EmptyString)
  | VObject _ | VArray _ => true
  end.

(** The decimal numeral that names the array index [i]. *)
Definition index_key (i : nat) : string :=
  NilZero.string_of_uint (Nat.to_uint i).

(** The own enumerable string-keyed properties of a value, which is what the
    spread [{ ...v }] copies: the fields of an object, the elements of an
    array under their indices, the characters of a string under theirs, and
    nothing for any other value ([undefined] and [null] included). *)
Definition own_enumerable (v : value) : list (string * value) :=
  match v with
  | VObject fields => fields
  | VArray items => imap (fun i x => (index_key i, x)) items
  | VStr s =>
      imap (fun i c => (index_key i, VStr (String c EmptyString)))
        (String.list_ascii_of_string s)
  | _ => []
  end.

(** Defining the property [k] of an object literal under construction: an
    existing property keeps its place and takes the new value, a new one is
    added last. *)
Fixpoint set_property (fields : list (string * value)) (k : string) (v : value)
  : list (string * value) :=
  match fields with
  | [] => [(k, v)]
  | (k', v') :: rest =>
      if String.eqb k' k then (k', v) :: rest
      else (k', v') :: set_property rest k v
  end.

(** * src/2Component-Communication/2Callback-Functions-(Child-Parent).js: [ToggleParent] *)

Module ToggleParent.

(** [const [isOn, setIsOn] = React.useState(false);] *)
Definition initial : value := VBool false.

(** The updater [(prev) => !prev] that [toggleHandler] hands to [setIsOn];
    [ToggleChild] calls [toggleHandler] on every click, and every call takes
    the state to what the updater returns on it. *)
Definition toggle (prev : value) : value := VBool (negb (truthy_value prev)).

End ToggleParent.

(** * src/2Component-Communication/9Advanced-Patterns.js: [Mediator] *)

(** What calling a built-in method of [Object.prototype] on a plain object
    does: the runtime's, not the repository's, so a parameter of the model.
    ([__proto__] is not a method at all: calling it throws.) *)
Class ObjectPrototype : Type :=
  call_builtin : string -> value -> outcome value.

Module Mediator.

(** [constructor() { this.handlers = {}; }]: a plain object whose own
    properties are the handlers. *)
Record t : Type := { handlers : gmap string callback }.

Definition new : t := {| handlers := ∅ |}.

(** [register(event, handler) { this.handlers[event] = handler; }]

    The assignment defines or overwrites an own property, except for the
    name [__proto__]: that assignment runs the setter that
    [Object.prototype] defines, which makes [handler] the prototype of
    [this.handlers], so that later lookups go through an object supplied by
    the caller.  The model stops there: [None]. *)
Definition register (event : string) (handler : callback) (this : t) : option t :=
  if String.eqb event "__proto__" then None
  else Some {| handlers := <[event := handler]> (handlers this) |}.

(** [[
  send(event, data) {
    if (this.handlers[event]) {
      this.handlers[event](data);
    }
  }
]]
    Returns the completion, the handlers invoked, and the instance after the
    call.  A built-in found on [Object.prototype] is truthy, and is called.
    The handler is called as a method of [this.handlers]; as for every
    [callback], what it would do to that object is outside the model. *)
Definition send `{ObjectPrototype} (event : string) (data : value) (this : t)
  : outcome unit * list call * t :=
  match index (handlers this) event with
  | Own handler =>
      (_ ← handler data; mret tt, [ {| callee := handler; argument := data |} ], this)
  | Inherited => (_ ← call_builtin event data; mret tt, [], this)
  | Absent => (Returns tt, [], this)
  end.

(** The calls a client makes on a mediator. *)
Inductive step : Type :=
| Register (event : string) (handler : callback)
| Send (event : string) (data : value).

(** A history of calls, oldest first; a call of [send] may return or
    throw, the history goes on. *)
Fixpoint run `{ObjectPrototype} (steps : list step) (this : t) : option t :=
  match steps with
  | [] => Some this
  | Register event handler :: rest =>
      this' ← register event handler this; run rest this'
  | Send event data :: rest => run rest (send event data this).2
  end.

(** The handler that the latest [register(event, _)] of a history gave, or
    [found] when the history has none. *)
Fixpoint last_registered (event : string) (steps : list step) (found : option callback)
  : option callback :=
  match steps with
  | [] => found
  | Register event' handler :: rest =>
      last_registered event rest (if String.eqb event' event then Some handler else found)
  | Send _ _ :: rest => last_registered event rest found
  end.

End Mediator.

(** * src/3State-And-LifeCycles/1UseState-UseReducer–When-To-Use-Which.js: the counters *)

Module CounterWithUseReducer.
Import UseStateUseReducer.

(** The three buttons of [CounterWithUseReducer]. *)
Inductive button : Type := ClickIncrement | ClickDecrement | ClickReset.

(** [onClick={() => dispatch({ type: "increment" })}], and likewise for the
    other two: the action a click dispatches. *)
Definition click (b : button) : value :=
  action_of match b with
            | ClickIncrement => "increment"
            | ClickDecrement => "decrement"
            | ClickReset => "reset"
            end.

(** [useReducer(reducer, initialState)]: every dispatched action takes the
    state to [reducer(state, action)]; an exception ends the sequence. *)
Fixpoint dispatch_all `{Coercions} (actions : list value) (state : value)
  : outcome value :=
  match actions with
  | [] => Returns state
  | action :: rest =>
      state' ← reducer state action;
      dispatch_all rest state'
  end.

(** What a counter should show after a sequence of clicks, counting in the
    integers. *)
Fixpoint tally (clicks : list button) (count : Z) : Z :=
  match clicks with
  | [] => count
  | ClickIncrement :: rest => tally rest (count + 1)
  | ClickDecrement :: rest => tally rest (count - 1)
  | ClickReset :: rest => tally rest 0
  end.

End CounterWithUseReducer.

(** [CounterWithUseState] of the same file, and [CounterWithState] of
    src/unnamed/part_004: the same two buttons. *)
Module CounterWithUseState.

Inductive button : Type := IncrementButton | DecrementButton.

(** [onClick={() => setCount(count + 1)}] and
    [onClick={() => setCount(count - 1)}]: the state that a click sets,
    computed from the [count] of the render in which it happens. *)
Definition click `{Coercions} (b : button) (count : value) : outcome value :=
  match b with
  | IncrementButton => arith Plus count (VNum 1)
  | DecrementButton => arith Minus count (VNum 1)
  end.

(** Clicks that each happen in the render that follows the previous one. *)
Fixpoint click_all `{Coercions} (clicks : list button) (count : value)
  : outcome value :=
  match clicks with
  | [] => Returns count
  | b :: rest =>
      count' ← click b count;
      click_all rest count'
  end.

(** The button of [CounterWithUseReducer] with the same label. *)
Definition as_dispatch (b : button) : CounterWithUseReducer.button :=
  match b with
  | IncrementButton => CounterWithUseReducer.ClickIncrement
  | DecrementButton => CounterWithUseReducer.ClickDecrement
  end.

End CounterWithUseState.

(** * src/4React-Hooks-(DeepDive)/2UseCallback-Vs-UseMemo–When-And-Why.js *)

Module UseCallbackVsUseMemo.

(** [const fib = (n) => (n <= 1 ? 1 : fib(n - 1) + fib(n - 2));] declared in
    [ExpensiveCalculation], on an integer Number [n].  The recursion is
    bounded by [fuel], the depth of calls allowed; the result is [None] when
    the fuel runs out, or when a sum overflows to [Infinity]. *)
Fixpoint fib (fuel : nat) (n : Z) : option Z :=
  match fuel with
  | O => None
  | S fuel =>
      if number_le n 1 then Some 1%Z
      else
        a ← (m ← number_arith Minus n 1; fib fuel m);
        b ← (m ← number_arith Minus n 2; fib fuel m);
        number_arith Plus a b
  end.

(** The Fibonacci numbers 0, 1, 1, 2, 3, 5, ... *)
Fixpoint Fibonacci (n : nat) : Z :=
  match n with
  | O => 0
  | S m =>
      match m with
      | O => 1
      | S k => Fibonacci m + Fibonacci k
      end
  end%Z.

(** Two consecutive Fibonacci numbers, computed in [n] steps. *)
Fixpoint Fibonacci_pair (n : nat) : Z * Z :=
  match n with
  | O => (0, 1)
  | S m => let '(a, b) := Fibonacci_pair m in (b, a + b)
  end%Z.

End UseCallbackVsUseMemo.

(** The same file: the list that [List] shows. *)
Module FilteredList.

(** [s.includes(searchString)] on strings: whether [searchString] occurs in
    [s], at any position. *)
Fixpoint includes (s searchString : string) : bool :=
  String.prefix searchString s
  || match s with
     | EmptyString => false
     | String _ rest => includes rest searchString
     end.

(** [i.includes(filter)] for a string [filter]: [String.prototype.includes]
    on a string; [Array.prototype.includes] on an array, which looks for an
    element equal to [filter]; a TypeError on every other value, which has
    no [includes] method, or no properties at all. *)
Definition includes_call (i : value) (filter : string) : outcome bool :=
  match i with
  | VStr s => Returns (includes s filter)
  | VArray items => Returns (existsb (fun x => is_string x filter) items)
  | _ => Throws TypeError
  end.

(** [items.filter(f)]: [Array.prototype.filter] calls [f] on each element in
    index order and keeps the elements for which it holds. *)
Fixpoint filter_elements (f : value -> outcome bool) (items : list value)
  : outcome (list value) :=
  match items with
  | [] => Returns []
  | item :: rest =>
      keep ← f item;
      l ← filter_elements f rest;
      mret (if keep : bool then item :: l else l)
  end.

Definition array_filter (f : value -> outcome bool) (v : value) : outcome value :=
  match v with
  | VArray items => l ← filter_elements f items; mret (VArray l)
  | _ => Throws TypeError
  end.

(** [[
function List({ items, filter }) {
  const filteredItems = useMemo(
    () => items.filter((i) => i.includes(filter)),
    [items, filter]
  );
]]
    for a string [filter]. *)
Definition filteredItems (items : value) (filter : string) : outcome value :=
  array_filter (fun i => includes_call i filter) items.

End FilteredList.

(** * src/1React-Fundamentals/7Keys-In-Lists-Why-Important-Impact-On-Reconciliation.js *)

Module KeysInLists.
Import Component.

(** [items.map((item, index) => ...)] on the elements of an array, [index]
    counting from the position of the first element given. *)
Fixpoint map_indexed {A} (f : value -> nat -> outcome A) (index : nat)
    (items : list value) : outcome (list A) :=
  match items with
  | [] => Returns []
  | item :: rest =>
      a ← f item index;
      l ← map_indexed f (S index) rest;
      mret (a :: l)
  end.

Definition array_map_indexed {A} (f : value -> nat -> outcome A) (v : value)
  : outcome (list A) :=
  match v with
  | VArray items => map_indexed f 0 items
  | _ => Throws TypeError
  end.

(** [[
function BadList({ items }) {
  return (
    <ul>
      {items.map((item, index) => (
        <li key={index}>{item}</li> // using index as key
      ))}
    </ul>
  );
}
]] *)
Definition BadList : render node :=
  destructured ["items"]%string (fun values =>
    let items := nth 0 values VUndefined in
    lis ← array_map_indexed (fun item index =>
             mret (Element "li" [("key"%string, VNum (Z.of_nat index))] [Expr item]))
           items;
    mret (Element "ul" [] [Nodes lis])).

(** [[
function GoodList({ items }) {
  return (
    <ul>
      {items.map((item) => (
        <li key={item.id}>{item.name}</li> // using unique id as key
      ))}
    </ul>
  );
}
]] *)
Definition GoodList : render node :=
  destructured ["items"]%string (fun values =>
    let items := nth 0 values VUndefined in
    lis ← array_map (fun item =>
             id ← get_property item "id";
             name ← get_property item "name";
             mret (Element "li" [("key"%string, id)] [Expr name]))
           items;
    mret (Element "ul" [] [Nodes lis])).

(** The [<li>] elements of a rendered list. *)
Definition rows (rendered : outcome node * value) : list node :=
  match rendered.1 with
  | Returns (Element _ _ [Nodes lis]) => lis
  | _ => []
  end.

(** The row with key [index] that shows [item]. *)
Definition BadList_row (index : nat) (item : value) : node :=
  Element "li" [("key"%string, VNum (Z.of_nat index))] [Expr item].

(** The row with key [item.id] that shows [item.name]. *)
Definition GoodList_row (item : value) : node :=
  Element "li" [("key"%string, field item "id")] [Expr (field item "name")].

End KeysInLists.

(** * src/3State-And-LifeCycles/6Avoiding-Stale-Closures-And-State-Splits.js *)

Module StateSplits.

(** The initial state of [ProfileGood] and of [ProfileWithReducer]:
    [{ name: "Alice", age: 25, city: "Delhi" }]. *)
Definition initial_profile : value :=
  VObject [("name", VStr "Alice"); ("age", VNum 25); ("city", VStr "Delhi")]%string.

(** [ProfileGood]: the updater [(prev) => ({ ...prev, city: "Mumbai" })]
    that [updateCity] hands to [setProfile]. *)
Definition updateCity (prev : value) : value :=
  VObject (set_property (own_enumerable prev) "city" (VStr "Mumbai")).

(** [ProfileWithReducer]:
[[
  const reducer = (state, action) => {
    switch (action.type) {
      case "updateCity":
        return { ...state, city: action.payload };
      default:
        return state;
    }
  };
]] *)
Definition reducer (state action : value) : outcome value :=
  type ← get_property action "type";
  if is_string type "updateCity" then
    payload ← get_property action "payload";
    mret (VObject (set_property (own_enumerable state) "city" payload))
  else
    mret state.

(** [{ type: "updateCity", payload: "Mumbai" }], the action of the button
    "Move to Mumbai". *)
Definition move_to_Mumbai : value :=
  VObject [("type", VStr "updateCity"); ("payload", VStr "Mumbai")]%string.

End StateSplits.

(** * src/5Rendering-And-Performance/3Avoiding-Unnecessary-Re-Renders-With-Selectors-And-Memoization.js *)

Module Selectors.

(** [const selectUser = (state) => state.user;] *)
Definition selectUser (state : value) : outcome value :=
  get_property state "user".

(** [const selectTxn = (state) => state.txn;] *)
Definition selectTxn (state : value) : outcome value :=
  get_property state "txn".

(** [const selectUserName = createSelector([selectUser], (user) => user.name);]
    The selector that reselect builds calls [selectUser] and then the result
    function on what it returned.  It also caches its last result, which
    cannot be observed on states that are never changed in place, as the
    states of a Redux store are. *)
Definition selectUserName (state : value) : outcome value :=
  user ← selectUser state;
  get_property user "name".

(** [[
const mapStateToProps1 = (state) => ({
  user: state.user, // gives entire user object
  transactions: state.txn, // component re-renders even if only user changes
});
]] *)
Definition mapStateToProps1 (state : value) : outcome value :=
  user ← get_property state "user";
  transactions ← get_property state "txn";
  mret (VObject [("user", user); ("transactions", transactions)]%string).

(** [const mapStateToProps2 = (state) => ({ userName: selectUserName(state), });] *)
Definition mapStateToProps2 (state : value) : outcome value :=
  userName ← selectUserName state;
  mret (VObject [("userName"%string, userName)]).

(** [const mapStateToProps = (state) => ({ name: selectUserName(state), });] *)
Definition mapStateToProps (state : value) : outcome value :=
  name ← selectUserName state;
  mret (VObject [("name"%string, name)]).

End Selectors.

(** * src/4React-Hooks-(DeepDive)/6Custom-Hooks-Reusability-And-Encapsulation.js *)

Module Guards.
Import Component.

(** [[
function Dashboard() {
  const user = useAuth();
  return <h1>Welcome {user ? user.name : "Guest"}</h1>;
}
]]
    as a function of what [useAuth] returns: [null] until the login timer
    fires, [{ name: "Alice" }] after it. *)
Definition Dashboard (user : value) : outcome node :=
  shown ← (if truthy_value user then get_property user "name"
           else Returns (VStr "Guest"));
  mret (Element "h1" [] [Text "Welcome "; Expr shown]).

(** [UserProfile], as a function of its state [user]:
[[
  return (
    <div>
      <h2>User Profile</h2>
      {user ? <p>{user.name}</p> : <p>Loading...</p>}
    </div>
  );
]] *)
Definition UserProfile (user : value) : outcome node :=
  shown ← (if truthy_value user
           then name ← get_property user "name"; mret (Element "p" [] [Expr name])
           else mret (Element "p" [] [Text "Loading..."]));
  mret (Element "div" [] [Element "h2" [] [Text "User Profile"]; shown]).

End Guards.

(** * src/unnamed/part_010 *)

Module PropDrilling.
Import Component.

(** [const GreatGrandChild = ({ user }) => { return <h3>User: {user}</h3>; };] *)
Definition GreatGrandChild : render node :=
  destructured ["user"]%string (fun values =>
    let user := nth 0 values VUndefined in
    mret (Element "h3" [] [Text "User: "; Expr user])).

(** [const GrandChild = ({ user }) => { return <GreatGrandChild user={user} />; };]
    The element is rendered by calling [GreatGrandChild] with the props
    [{ user }]. *)
Definition GrandChild : render node :=
  destructured ["user"]%string (fun values =>
    let user := nth 0 values VUndefined in
    (GreatGrandChild (VObject [("user"%string, user)])).1).

(** [const Child = ({ user }) => { return <GrandChild user={user} />; };] *)
Definition Child : render node :=
  destructured ["user"]%string (fun values =>
    let user := nth 0 values VUndefined in
    (GrandChild (VObject [("user"%string, user)])).1).

(** [const Parent = () => { const user = "Avi"; return <Child user={user} />; };] *)
Definition Parent : outcome node :=
  let user := VStr "Avi" in
  (Child (VObject [("user"%string, user)])).1.

(** [const UserContext = React.createContext();]: no default value. *)
Definition UserContext_default : value := VUndefined.

Definition useContext (provider : option value) : value :=
  match provider with
  | Some v => v
  | None => UserContext_default
  end.

(** [[
const GreatGrandChildFixed = () => {
  const user = React.useContext(UserContext);
  return <h3>User: {user}</h3>;
};
]] *)
Definition GreatGrandChildFixed (provider : option value) : outcome node :=
  let user := useContext provider in
  mret (Element "h3" [] [Text "User: "; Expr user]).

(** [[
const ParentWithContext = () => {
  const user = "Avi";
  return (
    <UserContext.Provider value={user}>
      <Child /> {/* no need to pass user everywhere */}
    </UserContext.Provider>
  );
};
]]
    The provider renders its children: [<Child />], called with the empty
    props [{}], and the space that follows it on the line.  Nothing below
    the provider reads the context. *)
Definition ParentWithContext : outcome node :=
  let user := VStr "Avi" in
  let provider := Some user in
  child ← (Child (VObject [])).1;
  mret (Nodes [child; Text " "]).

(** [const Layout = ({ children }) => { return <div className="layout">{children}</div>; };]
    on the children that the JSX of its caller lists. *)
Definition Layout (children : list node) : outcome node :=
  mret (Element "div" [("className"%string, VStr "layout")] [Nodes children]).

(** [[
const ParentWithComposition = () => {
  const user = "Avi";
  return (
    <Layout>
      <GreatGrandChild user={user} /> {/* directly pass where needed */}
    </Layout>
  );
};
]] *)
Definition ParentWithComposition : outcome node :=
  let user := VStr "Avi" in
  child ← (GreatGrandChild (VObject [("user"%string, user)])).1;
  Layout [child; Text " "].

End PropDrilling.

(** * src/2Component-Communication/9Advanced-Patterns.js: the components that use the selectors *)

Module ContextSelectors.
Import Component AdvancedPatterns.

(** [[
const ShowName = () => {
  const name = useUserName();
  console.log("Render: ShowName");
  return <h1>{name}</h1>;
};
]]
    What is written to the console is not modelled. *)
Definition ShowName (provider : option value) : outcome node :=
  name ← useUserName provider;
  mret (Element "h1" [] [Expr name]).

(** [[
const ShowTheme = () => {
  const theme = useUserTheme();
  console.log("Render: ShowTheme");
  return <p>Theme: {theme}</p>;
};
]] *)
Definition ShowTheme (provider : option value) : outcome node :=
  theme ← useUserTheme provider;
  mret (Element "p" [] [Text "Theme: "; Expr theme]).

End ContextSelectors.

(** * Binary64 arithmetic on integers *)

(** Adding or subtracting [1] is exact as long as the operand and the result
    have magnitude at most [2 ^ 53]: the proof follows [SpecFloat]'s
    [binary_normalize] through alignment, shifting and rounding. *)

Module Binary64.

Local Open Scope Z_scope.

Lemma digits2_pos_size p : digits2_pos p = Pos.size p.
Proof. induction p; simpl; congruence. Qed.

Lemma digits2_log2 p : Z.pos (digits2_pos p) = Z.log2 (Z.pos p) + 1.
Proof.
  rewrite digits2_pos_size. destruct p; simpl; try reflexivity; rewrite Pos2Z.inj_succ; lia.
Qed.

Lemma iter_pos_nat {A} (f : A -> A) p : forall x, SpecFloat.iter_pos f p x = Nat.iter (Pos.to_nat p) f x.
Proof.
  induction p as [p IH|p IH|]; intros x; cbn [SpecFloat.iter_pos].
  - rewrite !IH. rewrite Pos2Nat.inj_xI.
    replace (S (2 * Pos.to_nat p))%nat with (Pos.to_nat p + (Pos.to_nat p + 1))%nat by lia.
    rewrite !Nat.iter_add. reflexivity.
  - rewrite !IH. rewrite Pos2Nat.inj_xO.
    replace (2 * Pos.to_nat p)%nat with (Pos.to_nat p + Pos.to_nat p)%nat by lia.
    rewrite Nat.iter_add. reflexivity.
  - reflexivity.
Qed.

Lemma pos_iter_xO m k : Z.pos (Pos.iter xO m k) = Z.pos m * 2 ^ Z.pos k.
Proof.
  induction k using Pos.peano_ind.
  - simpl. lia.
  - rewrite Pos.iter_succ.
    replace (Z.pos (Pos.iter xO m k)~0) with (2 * Z.pos (Pos.iter xO m k)) by lia.
    rewrite IHk, Pos2Z.inj_succ, Z.pow_succ_r by lia. lia.
Qed.

Lemma shr_1_even p : shr_1 (Build_shr_record (Z.pos p~0) false false) = Build_shr_record (Z.pos p) false false.
Proof. reflexivity. Qed.

Lemma shr_exact k : forall m : positive, (Z.pos m mod 2 ^ Z.of_nat k = 0) ->
  Nat.iter k shr_1 (Build_shr_record (Z.pos m) false false)
  = Build_shr_record (Z.pos m / 2 ^ Z.of_nat k) false false.
Proof.
  induction k as [|k IH]; intros m Hm.
  - simpl. rewrite Z.div_1_r. reflexivity.
  - rewrite Nat.iter_succ_r.
    rewrite Nat2Z.inj_succ, Z.pow_succ_r in * by lia.
    destruct m as [p|p|].
    + exfalso. 
      assert (Z.pos p~1 mod 2 = 0).
      { apply Z.mod_divide; [lia|]. apply Z.mod_divide in Hm; [|lia].
        destruct Hm as [c Hc]. exists (c * 2 ^ Z.of_nat k). lia. }
      replace (Z.pos p~1) with (1 + Z.pos p * 2) in H by lia.
      rewrite Z.mod_add in H by lia. discriminate.
    + rewrite shr_1_even. rewrite IH.
      * f_equal. replace (Z.pos p~0) with (2 * Z.pos p) by lia.
        rewrite Z.div_mul_cancel_l; lia.
      * replace (Z.pos p~0) with (2 * Z.pos p) in Hm by lia.
        rewrite Z.mul_mod_distr_l in Hm; lia.
    + exfalso. assert (0 < 2 ^ Z.of_nat k) by (apply Z.pow_pos_nonneg; lia).
      rewrite Z.mod_small in Hm; lia.
Qed.

Lemma log2_bounds c : 1 <= c <= 2 ^ 53 -> 0 <= Z.log2 c <= 53.
Proof.
  intros H. split; [apply Z.log2_nonneg|].
  destruct (Z.eq_dec c (2 ^ 53)) as [->|Hne]; [reflexivity|].
  assert (Z.log2 c < 53) by (apply Z.log2_lt_pow2; lia). lia.
Qed.

Lemma significand_spec c j :
  1 <= c <= 2 ^ 53 -> 0 <= j -> 0 <= Z.log2 c - 52 + j ->
  c * 2 ^ j = significand c * 2 ^ (Z.log2 c - 52 + j) /\
  2 ^ 52 <= significand c < 2 ^ 53.
Proof.
  intros H Hj Hn. pose proof (log2_bounds c H) as Hl. unfold significand.
  pose proof (Z.log2_spec c ltac:(lia)) as Hs.
  assert (Hp : 0 < 2 ^ Z.log2 c) by (apply Z.pow_pos_nonneg; lia).
  destruct (Z.eq_dec (Z.log2 c) 53) as [E|NE].
  - assert (c = 2 ^ 53) by (rewrite E in Hs; lia). subst c.
    change (Z.log2 (2 ^ 53)) with 53 in *.
    change (2 ^ 53 * 2 ^ 52 / 2 ^ 53) with (2 ^ 52).
    split; [|split; [discriminate|reflexivity]].
    rewrite <- !Z.pow_add_r by lia. f_equal. lia.
  - assert (Hd : c * 2 ^ 52 = c * 2 ^ (52 - Z.log2 c) * 2 ^ Z.log2 c).
    { rewrite <- Z.mul_assoc, <- Z.pow_add_r by lia. f_equal. f_equal. lia. }
    rewrite Hd. rewrite Z.div_mul by lia. split.
    + rewrite <- Z.mul_assoc, <- Z.pow_add_r by lia. f_equal. f_equal. lia.
    + assert (Hq : 0 < 2 ^ (52 - Z.log2 c)) by (apply Z.pow_pos_nonneg; lia).
      assert (E52 : 2 ^ 52 = 2 ^ Z.log2 c * 2 ^ (52 - Z.log2 c)).
      { rewrite <- Z.pow_add_r by lia. f_equal. lia. }
      assert (E53 : 2 ^ 53 = 2 ^ Z.succ (Z.log2 c) * 2 ^ (52 - Z.log2 c)).
      { rewrite <- Z.pow_add_r by lia. f_equal. lia. }
      rewrite E52 at 1. rewrite E53. split.
      * apply Z.mul_le_mono_nonneg_r; lia.
      * apply Z.mul_lt_mono_pos_r; lia.
Qed.

Lemma log2_significand c : 1 <= c <= 2 ^ 53 -> Z.log2 (significand c) = 52.
Proof.
  intros H. destruct (significand_spec c 52 H) as [_ Hb]; [lia| |].
  { pose proof (log2_bounds c H). lia. }
  apply Z.log2_unique; [lia|]. exact Hb.
Qed.

Lemma Zdigits2_log2 m : 0 < m -> Zdigits2 m = Z.log2 m + 1.
Proof. destruct m; try lia. intros _. apply digits2_log2. Qed.

Lemma round_aux_exact s c j :
  1 <= c <= 2 ^ 53 -> 0 <= j -> 0 <= Z.log2 c - 52 + j ->
  binary_round_aux 53 1024 s (c * 2 ^ j) (- j) loc_Exact = encode s c.
Proof.
  intros Hc Hj Hn.
  pose proof (log2_bounds c Hc) as Hl.
  destruct (significand_spec c j Hc Hj Hn) as [Hcj Hm].
  pose proof (log2_significand c Hc) as Hlm.
  set (n := Z.log2 c - 52 + j) in *.
  set (m := significand c) in *.
  assert (Hpn : 0 < 2 ^ n) by (apply Z.pow_pos_nonneg; lia).
  assert (Hshift : shr_fexp 53 1024 (c * 2 ^ j) (- j) loc_Exact
                   = (Build_shr_record m false false, Z.log2 c - 52)).
  { unfold shr_fexp. rewrite Zdigits2_log2 by nia.
    rewrite Hcj. rewrite Z.log2_mul_pow2 by lia. rewrite Hlm.
    unfold fexp, emin. 
    replace (Z.max (n + 52 + 1 + - j - 53) (3 - 1024 - 53) - - j) with n by lia.
    unfold shr, shr_record_of_loc.
    destruct n as [|p|p] eqn:En; try lia.
    - rewrite Z.mul_1_r. f_equal. lia.
    - rewrite iter_pos_nat.
      destruct (m * 2 ^ Z.pos p) as [|q|q] eqn:Eq; try nia.
      rewrite shr_exact.
      + rewrite positive_nat_Z. rewrite <- Eq. rewrite Z.div_mul by lia. f_equal. lia.
      + rewrite positive_nat_Z. rewrite <- Eq. apply Z.mod_mul. lia. }
  unfold binary_round_aux. rewrite Hshift. cbn [shr_m loc_of_shr_record round_nearest_even].
  assert (Hshift2 : shr_fexp 53 1024 m (Z.log2 c - 52) loc_Exact
                   = (Build_shr_record m false false, Z.log2 c - 52)).
  { unfold shr_fexp. rewrite Zdigits2_log2 by lia. rewrite Hlm.
    unfold fexp, emin.
    replace (Z.max (52 + 1 + (Z.log2 c - 52) - 53) (3 - 1024 - 53) - (Z.log2 c - 52)) with 0 by lia.
    reflexivity. }
  rewrite Hshift2. cbn [shr_m]. unfold encode. fold m.
  destruct m as [|q|q] eqn:Em; try lia.
  replace (Z.log2 c - 52 <=? 1024 - 53) with true by (symmetry; apply Z.leb_le; lia).
  reflexivity.
Qed.

Lemma Z_of_double_encode s c :
  1 <= c <= 2 ^ 53 -> Z_of_double (encode s c) = Some (cond_Zopp s c).
Proof.
  intros Hc. pose proof (log2_bounds c Hc) as Hl.
  pose proof (log2_significand c Hc) as Hlm.
  unfold encode, Z_of_double.
  destruct (Z.leb_spec 0 (Z.log2 c - 52)) as [Hpos|Hneg].
  - destruct (significand_spec c 0 Hc ltac:(lia) ltac:(lia)) as [Hs Hb].
    rewrite Z2Pos.id by lia. f_equal.
    replace (Z.log2 c - 52 + 0) with (Z.log2 c - 52) in Hs by lia.
    set (p := 2 ^ (Z.log2 c - 52)) in *. set (m := significand c) in *.
    destruct s; cbn [cond_Zopp]; lia.
  - destruct (significand_spec c (52 - Z.log2 c) Hc ltac:(lia) ltac:(lia)) as [Hs Hb].
    replace (Z.log2 c - 52 + (52 - Z.log2 c)) with 0 in Hs by lia.
    rewrite Z.pow_0_r, Z.mul_1_r in Hs.
    rewrite Z2Pos.id by lia. rewrite <- Hs.
    replace (- (Z.log2 c - 52)) with (52 - Z.log2 c) by lia.
    assert (0 < 2 ^ (52 - Z.log2 c)) by (apply Z.pow_pos_nonneg; lia).
    rewrite Z.mod_mul by lia. cbn [Z.eqb]. f_equal.
    destruct s; cbn [cond_Zopp].
    + rewrite <- Z.mul_opp_l. rewrite Z.div_mul by lia. reflexivity.
    + rewrite Z.div_mul by lia. reflexivity.
Qed.

Lemma binary_round_unit s c :
  1 <= c <= 2 ^ 53 -> forall m, Z.pos m = c ->
  binary_round 53 1024 s m 0 = encode s c.
Proof.
  intros Hc m Hm. pose proof (log2_bounds c Hc) as Hl.
  unfold binary_round. rewrite digits2_log2, Hm.
  unfold fexp, emin.
  replace (Z.max (Z.log2 c + 1 + 0 - 53) (3 - 1024 - 53)) with (Z.log2 c - 52) by lia.
  unfold shl_align.
  destruct (Z.log2 c - 52 - 0) as [|k|k] eqn:Ek.
  - rewrite Hm. replace c with (c * 2 ^ 0) at 1 by (rewrite Z.pow_0_r; lia).
    change 0 with (- 0) at 2. apply round_aux_exact; lia.
  - rewrite Hm. replace c with (c * 2 ^ 0) at 1 by (rewrite Z.pow_0_r; lia).
    change 0 with (- 0) at 2. apply round_aux_exact; lia.
  - rewrite pos_iter_xO, Hm.
    replace (Z.log2 c - 52) with (- Z.pos k) by lia.
    apply round_aux_exact; lia.
Qed.

Lemma double_of_Z_encode n :
  1 <= Z.abs n <= 2 ^ 53 -> double_of_Z n = encode (n <? 0) (Z.abs n).
Proof.
  intros Hn. unfold double_of_Z, binary_normalize.
  destruct n as [|m|m]; [cbn in Hn; lia| |].
  - apply binary_round_unit; [exact Hn | reflexivity].
  - apply binary_round_unit; [exact Hn | reflexivity].
Qed.

Lemma binary_normalize_scaled z :
  Z.abs z <= 2 ^ 53 ->
  Z_of_double (binary_normalize 53 1024 (z * 2 ^ 52) (-52) false) = Some z.
Proof.
  intros Hz. 
  assert (Hround : forall s m c, 1 <= c <= 2 ^ 53 -> Z.pos m = c * 2 ^ 52 ->
            binary_round 53 1024 s m (-52) = encode s c).
  { intros s m c Hc Hm. pose proof (log2_bounds c Hc) as Hl.
    unfold binary_round. rewrite digits2_log2, Hm.
    rewrite Z.log2_mul_pow2 by lia.
    unfold fexp, emin.
    replace (Z.max (52 + Z.log2 c + 1 + -52 - 53) (3 - 1024 - 53)) with (Z.log2 c - 52) by lia.
    unfold shl_align.
    destruct (Z.log2 c - 52 - -52) as [|k|k] eqn:Ek; try lia.
    - rewrite Hm. change (-52) with (- 52). apply round_aux_exact; lia.
    - rewrite Hm. change (-52) with (- 52). apply round_aux_exact; lia. }
  unfold binary_normalize.
  destruct (z * 2 ^ 52) as [|m|m] eqn:Em.
  - cbn. f_equal. lia.
  - rewrite (Hround false m z) by lia. rewrite Z_of_double_encode by lia. reflexivity.
  - rewrite (Hround true m (- z)) by lia. rewrite Z_of_double_encode by lia.
    cbn [cond_Zopp]. f_equal. lia.
Qed.

Lemma shl_align_encode c :
  1 <= c <= 2 ^ 53 ->
  Z.pos (fst (shl_align (Z.to_pos (significand c)) (Z.log2 c - 52) (-52))) = c * 2 ^ 52.
Proof.
  intros Hc. pose proof (log2_bounds c Hc) as Hl.
  destruct (significand_spec c 52 Hc ltac:(lia) ltac:(lia)) as [Hs Hb].
  replace (Z.log2 c - 52 + 52) with (Z.log2 c) in Hs by lia.
  unfold shl_align.
  destruct (-52 - (Z.log2 c - 52)) as [|k|k] eqn:Ek; cbn [fst]; try lia.
  - rewrite Z2Pos.id by lia. assert (Z.log2 c = 0) as E by lia.
    rewrite E, Z.pow_0_r in Hs. lia.
  - rewrite pos_iter_xO. rewrite Z2Pos.id by lia.
    replace (Z.pos k) with (Z.log2 c) by lia. lia.
Qed.

Lemma double_of_one : double_of_Z 1 = S754_finite false 4503599627370496 (-52).
Proof. reflexivity. Qed.

(** Around [2 ^ 53] the integers thin out: [2 ^ 53 + 1] is not a Number, and
    adding [1] to [2 ^ 53] gives [2 ^ 53] again. *)
Example beyond_safe_integers :
  representable (2 ^ 53) = true
  /\ representable (2 ^ 53 + 1) = false
  /\ representable (2 ^ 53 + 2) = true
  /\ number_arith Plus (2 ^ 53) 1 = Some (2 ^ 53)
  /\ number_arith Plus (2 ^ 53) 2 = Some (2 ^ 53 + 2)
  /\ number_arith Minus (2 ^ 53) 1 = Some (2 ^ 53 - 1)
  /\ number_arith Plus (- 2 ^ 53) (-1) = Some (- 2 ^ 53)
  /\ number_arith Plus (2 ^ 1023) (2 ^ 1023) = None.
Proof. vm_compute. repeat split. Qed.

Lemma number_plus_one a :
  Z.abs a <= 2 ^ 53 -> Z.abs (a + 1) <= 2 ^ 53 -> number_arith Plus a 1 = Some (a + 1).
Proof.
  intros Ha Ha1. unfold number_arith.
  destruct (Z.eq_dec a 0) as [->|Hnz]; [reflexivity|].
  rewrite double_of_Z_encode by lia. rewrite double_of_one.
  pose proof (log2_bounds (Z.abs a) ltac:(lia)) as Hl.
  unfold encode. cbn [SFadd].
  replace (Z.min (Z.log2 (Z.abs a) - 52) (-52)) with (-52) by lia.
  rewrite shl_align_encode by lia.
  change (fst (shl_align 4503599627370496 (-52) (-52))) with 4503599627370496%positive.
  replace (cond_Zopp (a <? 0) (Z.abs a * 2 ^ 52) + cond_Zopp false (Z.pos 4503599627370496))
    with ((a + 1) * 2 ^ 52).
  - apply binary_normalize_scaled. exact Ha1.
  - destruct (Z.ltb_spec a 0); cbn [cond_Zopp]; change (Z.pos 4503599627370496) with (2 ^ 52); lia.
Qed.

Lemma number_minus_one a :
  Z.abs a <= 2 ^ 53 -> Z.abs (a - 1) <= 2 ^ 53 -> number_arith Minus a 1 = Some (a - 1).
Proof.
  intros Ha Ha1. unfold number_arith.
  destruct (Z.eq_dec a 0) as [->|Hnz]; [reflexivity|].
  rewrite double_of_Z_encode by lia. rewrite double_of_one.
  pose proof (log2_bounds (Z.abs a) ltac:(lia)) as Hl.
  unfold encode. cbn [SFsub].
  replace (Z.min (Z.log2 (Z.abs a) - 52) (-52)) with (-52) by lia.
  rewrite shl_align_encode by lia.
  change (fst (shl_align 4503599627370496 (-52) (-52))) with 4503599627370496%positive.
  replace (cond_Zopp (a <? 0) (Z.abs a * 2 ^ 52) - cond_Zopp false (Z.pos 4503599627370496))
    with ((a - 1) * 2 ^ 52).
  - apply binary_normalize_scaled. exact Ha1.
  - destruct (Z.ltb_spec a 0); cbn [cond_Zopp]; change (Z.pos 4503599627370496) with (2 ^ 52); lia.
Qed.

End Binary64.

(** * Facts about [EventEmitter] *)

Module EventEmitterFacts.
Import EventEmitter.

Lemma inherited_constructor : inherited "constructor" = true.
Proof. reflexivity. Qed.

Lemma inherited_newMessage : inherited "newMessage" = false.
Proof. reflexivity. Qed.

(** [on] returns exactly when [this.events[event]] is absent or is an own
    array; it then appends the callback to that event's list. *)
Lemma on_returns event callback this :
  inherited event = false \/ is_Some (events this !! event) ->
  on event callback this =
    (Returns tt,
     {| events := <[event := listeners this event ++ [callback]]> (events this) |}).
Proof.
  intros H. unfold on, index, listeners.
  destruct (events this !! event) as [l|] eqn:E; cbn.
  - rewrite E. reflexivity.
  - destruct H as [H|[? ?]]; [|discriminate].
    rewrite H. cbn. rewrite lookup_insert_eq. cbn. rewrite insert_insert_eq.
    reflexivity.
Qed.

(** For a name found on [Object.prototype] and not shadowed by an own
    property, [on] throws and leaves the instance as it was. *)
Lemma on_throws event callback this :
  inherited event = true -> events this !! event = None ->
  on event callback this = (Throws TypeError, this).
Proof.
  intros H E. unfold on, index. rewrite E, H. cbn. rewrite ?E, ?H. reflexivity.
Qed.

Lemma on_cases event callback this :
  on event callback this = (Throws TypeError, this) /\
    inherited event = true /\ events this !! event = None
  \/ on event callback this =
       (Returns tt,
        {| events := <[event := listeners this event ++ [callback]]> (events this) |}) /\
     (inherited event = false \/ is_Some (events this !! event)).
Proof.
  destruct (events this !! event) as [l|] eqn:E.
  - right. split; [apply on_returns|]; right; eauto.
  - destruct (inherited event) eqn:H.
    + left. split; [apply on_throws|]; auto.
    + right. split; [apply on_returns|]; left; auto.
Qed.

(** [emit] never writes to the instance. *)
Lemma emit_after event data this : after (emit event data this) = this.
Proof.
  unfold emit, after. destruct (index (events this) event); try reflexivity.
  destruct (forEach a data). reflexivity.
Qed.


(** In general [forEach] invokes the callbacks it reaches, and no other. *)
Lemma forEach_reached (cbs : list callback) data :
  (forEach cbs data).2 =
    map (fun c => {| callee := c; argument := data |}) (reached cbs data).
Proof.
  induction cbs as [|c cbs IH]; cbn; [reflexivity|].
  destruct (c data); [|reflexivity].
  destruct (forEach cbs data). cbn in *. rewrite IH. reflexivity.
Qed.

(** ** Histories *)

Lemma registered_app event (r1 r2 : list (string * callback)) :
  registered event (r1 ++ r2) = registered event r1 ++ registered event r2.
Proof. unfold registered. rewrite filter_app, map_app. reflexivity. Qed.

Lemma registered_one event event' (callback : callback) :
  registered event [(event', callback)] =
    if String.eqb event' event then [callback] else [].
Proof. unfold registered. cbn. destruct (String.eqb event' event); reflexivity. Qed.

Lemma consistent_new : consistent (new, []).
Proof. intros event. split; [apply lookup_empty | reflexivity]. Qed.

Lemma consistent_listeners st event :
  consistent st -> listeners st.1 event = registered event st.2.
Proof.
  intros H. unfold listeners. destruct (H event) as [-> _].
  destruct (registered event st.2); reflexivity.
Qed.

Lemma consistent_apply s st :
  consistent st ->
  consistent ((apply s st.1).1, st.2 ++ (apply s st.1).2).
Proof.
  intros H. destruct st as [this regs]. cbn [fst snd] in *.
  destruct s as [event callback|event data]; cbn [apply].
  - destruct (on_cases event callback this) as [(-> & _ & _)|(-> & Hok)]; cbn [fst snd].
    + rewrite app_nil_r. exact H.
    + intros event'. cbn [fst snd events].
      rewrite registered_app, registered_one.
      pose proof (consistent_listeners (this, regs) event H) as Hl. cbn [fst snd] in Hl.
      destruct (String.eqb_spec event event') as [<-|Hne].
      * rewrite lookup_insert_eq, Hl. split.
        -- destruct (registered event regs); reflexivity.
        -- intros Hi. exfalso. destruct (H event) as [He Hr].
           destruct Hok as [Hf|[l Hs]]; [congruence|].
           cbn [fst snd] in He, Hr. rewrite Hs, (Hr Hi) in He. discriminate.
      * rewrite lookup_insert_ne by exact Hne. rewrite app_nil_r. apply (H event').
  - rewrite emit_after, app_nil_r. exact H.
Qed.

Lemma consistent_run steps : forall st, consistent st -> consistent (run steps st).
Proof.
  induction steps as [|s steps IH]; intros st H; cbn [run]; [exact H|].
  pose proof (consistent_apply s st H) as H'.
  destruct (apply s st.1) as [this' regs']. apply IH. exact H'.
Qed.

Lemma index_consistent st event :
  consistent st ->
  index (events st.1) event =
    match registered event st.2 with
    | [] => if inherited event then Inherited else Absent
    | l => Own l
    end.
Proof.
  intros H. unfold index. destruct (H event) as [-> _].
  destruct (registered event st.2); reflexivity.
Qed.

End EventEmitterFacts.

Module EventEmitterClaims.
Import EventEmitter EventEmitterFacts.

(** ** C7: what [emit] invokes *)




(** ** C1: the class has laws of its own *)





End EventEmitterClaims.

(** * Facts about [globalEmitter] *)

Module CallbackFunctionsClaims.
Import EventEmitter EventEmitterFacts CallbackFunctions.

(** C2, as amended.  The file does create and export one mutable object,
    [globalEmitter], which its components share.  Whatever its current
    state: [Sender]'s [sendMessage] leaves it unchanged, provided that no
    listener it holds calls back into [globalEmitter] or edits its [events];
    the effects of [Receiver] and of [useEvent] change at most the list of
    the event they subscribe to and leave the listeners of every other event
    as they were; and a subscription through [useEvent] to a name that
    [Object.prototype] does not define appends the handler to that event's
    list. *)
Theorem globalEmitter_frame
    (emitter : t) (eventName : string) (handler setMsg : callback) :
  after (Sender_sendMessage emitter) = emitter
  /\ delete eventName (events (useEvent_effect eventName handler emitter).2) =
       delete eventName (events emitter)
  /\ delete "newMessage" (events (Receiver_effect setMsg emitter).2) =
       delete "newMessage" (events emitter)
  /\ (if inherited eventName then True
      else events (useEvent_effect eventName handler emitter).2 !! eventName =
             Some (listeners emitter eventName ++ [handler])).
Proof.
  split; [apply emit_after|]. split; [|split].
  - unfold useEvent_effect.
    destruct (on_cases eventName handler emitter) as [(-> & _ & _)|(-> & _)];
      [reflexivity|].
    cbn [snd events]. apply delete_insert_eq.
  - unfold Receiver_effect.
    destruct (on_cases "newMessage" (fun data => setMsg data) emitter)
      as [(-> & _ & _)|(-> & _)]; [reflexivity|].
    cbn [snd events]. apply delete_insert_eq.
  - destruct (inherited eventName) eqn:Hi; [exact I|].
    unfold useEvent_effect. rewrite on_returns by (left; exact Hi).
    cbn [snd events]. apply lookup_insert_eq.
Qed.

(** [globalEmitter] is state that one component writes and another reads:
    [Receiver]'s effect changes it, and what [Sender]'s [sendMessage] does
    afterwards differs from what it does on the emitter as created. *)
Lemma globalEmitter_is_shared_mutable_state :
  let setMsg : callback := fun _ => Returns VUndefined in
  let mounted := (Receiver_effect setMsg globalEmitter).2 in
  events globalEmitter !! "newMessage" = None
  /\ (exists l, events mounted !! "newMessage" = Some l /\ length l = 1)
  /\ length (invoked (Sender_sendMessage globalEmitter)) = 0
  /\ length (invoked (Sender_sendMessage mounted)) = 1.
Proof. vm_compute. repeat split. eexists. split; reflexivity. Qed.

End CallbackFunctionsClaims.

(** * Which calls return *)

Module TotalityClaims.
Import EventEmitter EventEmitterFacts AdvancedPatterns.

(** C5, as amended.  [EventEmitter.on(event, callback)] returns for every
    event name that [Object.prototype] does not define, on every instance.
    [useUserName] returns [user.name] whenever the context value has a
    [user] that is neither [undefined] nor [null] (as every value that
    [UserProvider] provides with an object for [user] has), and throws a
    TypeError when no provider is mounted, since the context then holds its
    default, [null]. *)
Theorem operations_return_where_defined
    (event : string) (callback : callback) (this : EventEmitter.t)
    (context user : value) :
  inherited event = false ->
  get_property context "user" = Returns user ->
  user <> VUndefined -> user <> VNull ->
  (on event callback this).1 = Returns tt
  /\ useUserName (Some context) = get_property user "name"
  /\ returns (useUserName (Some context)) = true
  /\ useUserName None = Throws TypeError.
Proof.
  intros Hi Hu Hundef Hnull. split; [|split; [|split]].
  - rewrite on_returns by (left; exact Hi). reflexivity.
  - unfold useUserName. cbn [useContext]. rewrite Hu. reflexivity.
  - unfold useUserName. cbn [useContext]. rewrite Hu. cbn.
    destruct user; try reflexivity; congruence.
  - reflexivity.
Qed.

Lemma operations_return_where_defined_witness :
  (on "newMessage" (fun data => Returns data) new).1 = Returns tt
  /\ useUserName (Some (UserProvider_value initial_user VNull)) =
       get_property initial_user "name"
  /\ returns (useUserName (Some (UserProvider_value initial_user VNull))) = true
  /\ useUserName None = Throws TypeError.
Proof.
  apply (operations_return_where_defined "newMessage" (fun data => Returns data)
           new (UserProvider_value initial_user VNull) initial_user);
    [reflexivity | reflexivity | discriminate | discriminate].
Defined.

(** Under the provider's initial state the selector yields ["Avi"]. *)
Lemma useUserName_initial setUser :
  useUserName (Some (UserProvider_value initial_user setUser)) = Returns (VStr "Avi").
Proof. reflexivity. Qed.

(** Two calls that throw: [on] with the name of a property that every object
    inherits, and [useUserName] without a provider (or with a provider whose
    value is [null]). *)
Lemma on_constructor_and_useUserName_null_throw :
  (on "constructor" (fun data => Returns data) new).1 = Throws TypeError
  /\ useUserName None = Throws TypeError
  /\ useUserName (Some VNull) = Throws TypeError.
Proof. repeat split. Qed.

End TotalityClaims.

(** * Components leave their props alone *)

Module ComponentClaims.
Import Component.

(** C6.  For each function component of the repository whose parameter is
    the [props] object ([Welcome] and [Child] of Props-Vs-State,
    [GreetingFunctional], [Welcome] and [WelcomeBabel] of Keys-In-Lists, and
    [ItemList]), and for every [props] value, the object is after the call
    what it was before it, whether the call returns or throws. *)
Theorem props_are_not_mutated (c : component) (props : value) :
  (body c props).2 = props.
Proof.
  destruct c; cbn [body];
    unfold Welcome, Child, GreetingFunctional, Welcome_JSX, WelcomeBabel, ItemList;
    unfold mbind, render_bind, mret, render_ret, read, lift.
  1-5: destruct (get_property props _); reflexivity.
  destruct (get_property props "items") as [items|e]; [|reflexivity].
  destruct (array_map _ items); reflexivity.
Qed.

(** What the components named in the claim return on the props their callers
    pass. *)
Lemma Welcome_Avi :
  Welcome (VObject [("name", VStr "Avi")]%string) =
    (Returns (Element "h1" [] [Text "Hello, "; Expr (VStr "Avi")]),
     VObject [("name", VStr "Avi")]%string).
Proof. reflexivity. Qed.

Lemma Child_message :
  Child (VObject [("message", VStr "Hello Child!")]%string) =
    (Returns (Element "p" [] [Text "Message from parent: "; Expr (VStr "Hello Child!")]),
     VObject [("message", VStr "Hello Child!")]%string).
Proof. reflexivity. Qed.

Lemma ItemList_without_items : (ItemList (VObject [])).1 = Throws TypeError.
Proof. reflexivity. Qed.

End ComponentClaims.

(** * The counter reducers *)

Module ReducerClaims.
Import Binary64 UseStateUseReducer.

(** From [- 2 ^ 53] up to [2 ^ 53 - 1], [+ 1] is exact and [- 1] undoes it. *)
Lemma safe_integer_below_2_53 n : safe_integer n = true -> below_2_53 n = true.
Proof.
  unfold safe_integer, below_2_53. intros H%Z.leb_le.
  apply andb_true_intro. split; [apply Z.leb_le | apply Z.ltb_lt]; lia.
Qed.

Lemma below_2_53_bounds n : below_2_53 n = true -> (- 2 ^ 53 <= n < 2 ^ 53)%Z.
Proof.
  unfold below_2_53. intros [H1%Z.leb_le H2%Z.ltb_lt]%andb_prop. lia.
Qed.

Lemma plus_one_exact `{Coercions} n :
  below_2_53 n = true -> arith Plus (VNum n) (VNum 1) = Returns (VNum (n + 1)).
Proof.
  intros Hs%below_2_53_bounds. cbn [arith].
  rewrite number_plus_one; [reflexivity| |]; lia.
Qed.

Lemma minus_one_exact `{Coercions} n :
  below_2_53 n = true -> arith Minus (VNum (n + 1)) (VNum 1) = Returns (VNum n).
Proof.
  intros Hs%below_2_53_bounds. cbn [arith].
  rewrite number_minus_one; [|lia|lia]. do 2 f_equal. lia.
Qed.

Lemma increment_count `{Coercions} state n :
  get_property state "count" = Returns (VNum n) -> below_2_53 n = true ->
  reducer state (action_of "increment") =
    Returns (VObject [("count"%string, VNum (n + 1))]).
Proof.
  intros Hc Hs. unfold reducer, action_of. cbn. rewrite Hc. cbn -[arith].
  rewrite plus_one_exact by exact Hs. reflexivity.
Qed.

Lemma default_case `{Coercions} state action type :
  get_property action "type" = Returns type ->
  type <> VStr "increment" -> type <> VStr "decrement" -> type <> VStr "reset" ->
  reducer state action = Returns state.
Proof.
  intros Ht Hi Hd Hr. unfold reducer. rewrite Ht. cbn.
  assert (Hs : forall s, type <> VStr s -> is_string type s = false).
  { intros s Hne. destruct type; try reflexivity. cbn.
    destruct (String.eqb_spec s0 s); [subst; congruence|reflexivity]. }
  rewrite !Hs by assumption. reflexivity.
Qed.

(** C8, as amended.  For every state whose [count] is an integer [n] with
    [- 2 ^ 53 <= n < 2 ^ 53] (every safe integer is one), incrementing and
    then decrementing gives back a state with the same [count].  For every
    state at all, [reset] gives [{ count: 0 }], so that resetting twice is
    resetting once.  For every action whose [type] is none of ["increment"],
    ["decrement"] and ["reset"], the reducer returns the state it was
    given. *)
Theorem reducer_laws `{Coercions} :
  (forall state n,
      get_property state "count" = Returns (VNum n) -> below_2_53 n = true ->
      increment_then_decrement state = Returns (VNum n))
  /\ (forall state,
        reducer state (action_of "reset") = Returns (VObject [("count"%string, VNum 0)]))
  /\ (forall state,
        (s ← reducer state (action_of "reset"); reducer s (action_of "reset")) =
        reducer state (action_of "reset"))
  /\ (forall state action type,
        get_property action "type" = Returns type ->
        type <> VStr "increment" -> type <> VStr "decrement" ->
        type <> VStr "reset" ->
        reducer state action = Returns state).
Proof.
  split; [|split; [|split]].
  - intros state n Hc Hs. unfold increment_then_decrement.
    rewrite (increment_count state n Hc Hs). cbn -[arith].
    rewrite minus_one_exact by exact Hs. reflexivity.
  - reflexivity.
  - reflexivity.
  - apply @default_case.
Qed.

Lemma reducer_laws_witness :
  let C : Coercions := fun _ _ _ => Throws TypeError in
  @increment_then_decrement C (VObject [("count"%string, VNum 41)]) = Returns (VNum 41)
  /\ @reducer C (VObject [("count"%string, VNum 41)]) (action_of "noop") =
       Returns (VObject [("count"%string, VNum 41)]).
Proof.
  intros C. split.
  - apply (proj1 (@reducer_laws C)); reflexivity.
  - apply (proj2 (proj2 (proj2 (@reducer_laws C))) _ _ (VStr "noop"));
      [reflexivity | discriminate | discriminate | discriminate].
Defined.

(** At [2 ^ 53] the round trip loses one: [2 ^ 53 + 1] is not a Number and
    rounds back to [2 ^ 53], from which decrementing gives [2 ^ 53 - 1]. *)
Lemma round_trip_fails_at_2_53 :
  let state := VObject [("count"%string, VNum 9007199254740992)] in
  get_property state "count" = Returns (VNum (2 ^ 53))
  /\ representable (2 ^ 53) = true
  /\ (forall C : Coercions,
        @reducer C state (action_of "increment") = Returns state)
  /\ (forall C : Coercions,
        @increment_then_decrement C state = Returns (VNum (2 ^ 53 - 1))).
Proof. repeat split. Qed.

(** C9.  The [reducer] of UseState-UseReducer and the [reducer] declared
    inside [CounterWithReducer] in part_004 give the same outcome on every
    state and every action: the same value returned, or the same exception
    thrown. *)
Theorem reducers_agree `{Coercions} (state action : value) :
  UseStateUseReducer.reducer state action = UseReducerVsUseState.reducer state action.
Proof. reflexivity. Qed.

End ReducerClaims.

(** * Further facts *)

Module MoreFacts.
Import EventEmitter EventEmitterFacts.

(** X1.  For callbacks that neither call back into the instance nor edit
    its [events], whether they return or throw: after any history of [on]
    and [emit] calls on a new [EventEmitter], [emit(event, data)] invokes the
    callbacks registered for [event], in registration order, up to and
    including the first one that throws, and leaves the instance
    unchanged. *)
Theorem emit_invokes_until_first_throw
    (steps : list step) (event : string) (data : value) :
  let st := run steps (new, []) in
  invoked (emit event data st.1) =
    map (fun c => {| callee := c; argument := data |})
      (reached (registered event st.2) data)
  /\ after (emit event data st.1) = st.1.
Proof.
  intros st. split; [|apply emit_after].
  assert (Hc : consistent st) by (apply consistent_run, consistent_new).
  unfold invoked, emit. rewrite (index_consistent st event Hc).
  destruct (registered event st.2) as [|c l] eqn:E.
  - destruct (inherited event); reflexivity.
  - pose proof (forEach_reached (c :: l) data) as Hf.
    destruct (forEach (c :: l) data). exact Hf.
Qed.

(** X2.  [Subject]: after [subscribe(o1)], ..., [subscribe(on)] on a new
    subject, [observers] is [o1 .. on]; and when no observer calls back into
    the subject or edits its [observers], [notify(data)] invokes them in
    that order up to and including the first that throws, and leaves the
    subject unchanged. *)
Theorem Subject_notify (observers : list callback) (data : value) :
  let subject := fold_left (fun s o => Subject.subscribe o s) observers Subject.new in
  Subject.observers subject = observers
  /\ (Subject.notify data subject).1.2 =
       map (fun c => {| callee := c; argument := data |}) (reached observers data)
  /\ (Subject.notify data subject).2 = subject.
Proof.
  intros subject.
  assert (Hobs : forall l s,
            Subject.observers (fold_left (fun s o => Subject.subscribe o s) l s) =
            Subject.observers s ++ l).
  { induction l as [|o l IH]; intros s; cbn.
    - rewrite app_nil_r. reflexivity.
    - rewrite IH. cbn. rewrite <- app_assoc. reflexivity. }
  assert (H : Subject.observers subject = observers) by apply Hobs.
  split; [exact H|]. unfold Subject.notify. rewrite H.
  pose proof (forEach_reached observers data) as Hf.
  destruct (forEach observers data). split; [exact Hf | reflexivity].
Qed.

(** X3.  [PubSub] is [EventEmitter] under other names: [subscribe] and
    [publish] do to a [PubSub] what [on] and [emit] do to the emitter that
    stores the same events. *)
Theorem PubSub_is_EventEmitter
    (event : string) (handler : callback) (data : value) (this : PubSub.t) :
  (PubSub.subscribe event handler this).1 =
    (on event handler (PubSub_as_emitter this)).1
  /\ PubSub_as_emitter (PubSub.subscribe event handler this).2 =
       (on event handler (PubSub_as_emitter this)).2
  /\ (PubSub.publish event data this).1 =
       (emit event data (PubSub_as_emitter this)).1
  /\ PubSub_as_emitter (PubSub.publish event data this).2 =
       (emit event data (PubSub_as_emitter this)).2.
Proof.
  destruct this as [ev]. unfold PubSub.subscribe, on, PubSub.publish, emit,
    PubSub_as_emitter. cbn [PubSub.events events].
  repeat split.
  - destruct (index ev event) as [l| |]; cbn; unfold index; cbn;
      rewrite ?lookup_insert_eq; destruct (ev !! event); try reflexivity;
      destruct (inherited event); reflexivity.
  - destruct (index ev event) as [l| |]; cbn; unfold index; cbn;
      rewrite ?lookup_insert_eq; destruct (ev !! event); try reflexivity;
      destruct (inherited event); reflexivity.
  - destruct (index ev event) as [l| |]; try reflexivity.
    destruct (forEach l data); reflexivity.
  - destruct (index ev event) as [l| |]; try reflexivity.
    destruct (forEach l data); reflexivity.
Qed.

(** The resource that [fetchUser] returns: [read()] throws the pending
    promise until the fetch settles, returns the data once it has succeeded,
    and throws the error once it has failed; it returns exactly in the
    success state. *)
Theorem Resource_read (suspender data err : value) (this : Resource.t) :
  Resource.read suspender Resource.initial = Throws (Thrown suspender)
  /\ Resource.read suspender (Resource.fulfilled data this) = Returns data
  /\ Resource.read suspender (Resource.rejected err this) = Throws (Thrown err)
  /\ (returns (Resource.read suspender this) = true <->
      Resource.current this = Resource.Success).
Proof.
  repeat split; unfold Resource.read; destruct (Resource.current this);
    cbn; congruence.
Qed.

(** A component that destructures its props in the parameter list leaves
    the props object as it was, whatever its body computes. *)
Theorem destructured_props_are_not_mutated
    {A} (keys : list string) (component_body : list value -> outcome A)
    (props : value) :
  (Component.destructured keys component_body props).2 = props.
Proof. unfold Component.destructured. destruct props; reflexivity. Qed.

Lemma Profile_Alice :
  let user := VObject [("name", VStr "Alice"); ("age", VNum 30)]%string in
  (Component.Profile (VObject [("user"%string, user)])).1 =
    Returns (Component.Element "div" []
               [Component.Element "h2" [] [Component.Expr (VStr "Alice")];
                Component.Element "p" []
                  [Component.Text "Age: "; Component.Expr (VNum 30)]]).
Proof. reflexivity. Qed.

End MoreFacts.

(** * Exact integer arithmetic in general *)

Module Binary64Exact.
Import Binary64.
Local Open Scope Z_scope.

Lemma Z_of_double_of_Z n : Z.abs n <= 2 ^ 53 -> Z_of_double (double_of_Z n) = Some n.
Proof.
  intros Hn. destruct (Z.eq_dec n 0) as [->|Hnz]; [reflexivity|].
  rewrite double_of_Z_encode by lia. rewrite Z_of_double_encode by lia.
  f_equal. destruct (Z.ltb_spec n 0); cbn [cond_Zopp]; lia.
Qed.

(** Normalising [z * 2 ^ j] at exponent [- j] gives [z]. *)
Lemma binary_normalize_exact z j :
  Z.abs z <= 2 ^ 53 -> 0 <= j ->
  Z_of_double (binary_normalize 53 1024 (z * 2 ^ j) (- j) false) = Some z.
Proof.
  intros Hz Hj.
  assert (Hpj : 0 < 2 ^ j) by (apply Z.pow_pos_nonneg; lia).
  assert (Hround : forall s m c, 1 <= c <= 2 ^ 53 -> Z.pos m = c * 2 ^ j ->
            binary_round 53 1024 s m (- j) = encode s c).
  { intros s m c Hc Hm. pose proof (log2_bounds c Hc) as Hl.
    unfold binary_round. rewrite digits2_log2, Hm.
    rewrite Z.log2_mul_pow2 by lia.
    unfold fexp, emin.
    replace (Z.max (j + Z.log2 c + 1 + - j - 53) (3 - 1024 - 53)) with (Z.log2 c - 52) by lia.
    unfold shl_align.
    destruct (Z.log2 c - 52 - - j) as [|k|k] eqn:Ek.
    - rewrite Hm. apply round_aux_exact; lia.
    - rewrite Hm. apply round_aux_exact; lia.
    - rewrite pos_iter_xO, Hm.
      rewrite <- Z.mul_assoc, <- Z.pow_add_r by lia.
      replace (Z.log2 c - 52) with (- (j + Z.pos k)) by lia.
      apply round_aux_exact; lia. }
  unfold binary_normalize.
  destruct (z * 2 ^ j) as [|m|m] eqn:Em.
  - cbn. f_equal. nia.
  - rewrite (Hround false m z) by nia. rewrite Z_of_double_encode by nia. reflexivity.
  - rewrite (Hround true m (- z)) by nia. rewrite Z_of_double_encode by nia.
    cbn [cond_Zopp]. f_equal. lia.
Qed.

(** Aligning the encoding of [c] to a smaller exponent [- j] scales the
    significand to [c * 2 ^ j]. *)
Lemma shl_align_exact c j :
  1 <= c <= 2 ^ 53 -> 0 <= j -> 0 <= Z.log2 c - 52 + j ->
  Z.pos (fst (shl_align (Z.to_pos (significand c)) (Z.log2 c - 52) (- j))) = c * 2 ^ j.
Proof.
  intros Hc Hj Hn. pose proof (log2_bounds c Hc) as Hl.
  destruct (significand_spec c j Hc Hj Hn) as [Hs Hb].
  unfold shl_align.
  destruct (- j - (Z.log2 c - 52)) as [|k|k] eqn:Ek; cbn [fst]; try lia.
  - rewrite Z2Pos.id by lia. replace (Z.log2 c - 52 + j) with 0 in Hs by lia.
    rewrite Z.pow_0_r in Hs. lia.
  - rewrite pos_iter_xO. rewrite Z2Pos.id by lia.
    replace (Z.pos k) with (Z.log2 c - 52 + j) by lia. lia.
Qed.

(** [a + b] and [a - b] are exact whenever the operands and the result have
    magnitude at most [2 ^ 53]. *)
Lemma number_arith_exact op a b :
  Z.abs a <= 2 ^ 53 -> Z.abs b <= 2 ^ 53 ->
  Z.abs (match op with Plus => a + b | Minus => a - b end) <= 2 ^ 53 ->
  number_arith op a b = Some (match op with Plus => a + b | Minus => a - b end).
Proof.
  intros Ha Hb Hr. unfold number_arith.
  destruct (Z.eq_dec a 0) as [->|Hna].
  { destruct (Z.eq_dec b 0) as [->|Hnb]; [destruct op; reflexivity|].
    rewrite (double_of_Z_encode b) by lia.
    change (double_of_Z 0) with (S754_zero false). unfold encode.
    destruct op; cbn [SFadd SFsub SFopp].
    - fold (encode (b <? 0) (Z.abs b)). rewrite Z_of_double_encode by lia.
      f_equal. destruct (Z.ltb_spec b 0); cbn [cond_Zopp]; lia.
    - fold (encode (negb (b <? 0)) (Z.abs b)). rewrite Z_of_double_encode by lia.
      f_equal. destruct (Z.ltb_spec b 0); cbn [cond_Zopp negb]; lia. }
  destruct (Z.eq_dec b 0) as [->|Hnb].
  { rewrite (double_of_Z_encode a) by lia.
    change (double_of_Z 0) with (S754_zero false). unfold encode.
    destruct op; cbn [SFadd SFsub SFopp];
      fold (encode (a <? 0) (Z.abs a)); rewrite Z_of_double_encode by lia;
      f_equal; destruct (Z.ltb_spec a 0); cbn [cond_Zopp]; lia. }
  rewrite (double_of_Z_encode a), (double_of_Z_encode b) by lia.
  pose proof (log2_bounds (Z.abs a) ltac:(lia)) as Hla.
  pose proof (log2_bounds (Z.abs b) ltac:(lia)) as Hlb.
  set (j := - Z.min (Z.log2 (Z.abs a) - 52) (Z.log2 (Z.abs b) - 52)).
  destruct (Z_le_gt_dec 0 j) as [Hj|Hj].
  - unfold encode. destruct op; cbn [SFadd SFsub].
    + replace (Z.min (Z.log2 (Z.abs a) - 52) (Z.log2 (Z.abs b) - 52)) with (- j) by lia.
      rewrite !shl_align_exact by lia.
      replace (cond_Zopp (a <? 0) (Z.abs a * 2 ^ j) + cond_Zopp (b <? 0) (Z.abs b * 2 ^ j))
        with ((a + b) * 2 ^ j).
      * apply binary_normalize_exact; lia.
      * destruct (Z.ltb_spec a 0), (Z.ltb_spec b 0); cbn [cond_Zopp]; lia.
    + replace (Z.min (Z.log2 (Z.abs a) - 52) (Z.log2 (Z.abs b) - 52)) with (- j) by lia.
      rewrite !shl_align_exact by lia.
      replace (cond_Zopp (a <? 0) (Z.abs a * 2 ^ j) - cond_Zopp (b <? 0) (Z.abs b * 2 ^ j))
        with ((a - b) * 2 ^ j).
      * apply binary_normalize_exact; lia.
      * destruct (Z.ltb_spec a 0), (Z.ltb_spec b 0); cbn [cond_Zopp]; lia.
  - assert (Ea : Z.log2 (Z.abs a) = 53) by lia.
    assert (Eb : Z.log2 (Z.abs b) = 53) by lia.
    assert (Z.abs a = 2 ^ 53).
    { pose proof (Z.log2_spec (Z.abs a) ltac:(lia)) as Hs. rewrite Ea in Hs. lia. }
    assert (Z.abs b = 2 ^ 53).
    { pose proof (Z.log2_spec (Z.abs b) ltac:(lia)) as Hs. rewrite Eb in Hs. lia. }
    assert (Ha' : a = 2 ^ 53 \/ a = - 2 ^ 53) by lia.
    assert (Hb' : b = 2 ^ 53 \/ b = - 2 ^ 53) by lia.
    destruct Ha' as [-> | ->], Hb' as [-> | ->], op; vm_compute in Hr;
      try (exfalso; apply Hr; reflexivity); reflexivity.
Qed.

(** Comparing with [1]. *)
Lemma number_le_one n : Z.abs n <= 2 ^ 53 -> number_le n 1 = (n <=? 1).
Proof.
  intros Hn. unfold number_le.
  destruct (Z.eq_dec n 0) as [->|Hnz]; [reflexivity|].
  rewrite double_of_Z_encode by lia. rewrite double_of_one.
  pose proof (log2_bounds (Z.abs n) ltac:(lia)) as Hl.
  unfold encode, SFleb, SFcompare.
  destruct (Z.ltb_spec n 0) as [Hneg|Hpos].
  - symmetry. apply Z.leb_le. lia.
  - destruct (Z.eq_dec n 1) as [->|Hn1]; [reflexivity|].
    assert (1 <= Z.log2 (Z.abs n)).
    { apply Z.log2_le_pow2; lia. }
    destruct (Z.compare_spec (Z.log2 (Z.abs n) - 52) (-52)); lia.
Qed.

End Binary64Exact.

(** * Facts about values *)

Module ValueFacts.
Import Component.

Lemma get_property_field v k : nullish v = false -> get_property v k = Returns (field v k).
Proof. destruct v; cbn; intros H; try discriminate; reflexivity. Qed.

Lemma get_property_nullish v k : nullish v = true -> get_property v k = Throws TypeError.
Proof. destruct v; cbn; intros H; try discriminate; reflexivity. Qed.

Lemma get_property_returns v k x : get_property v k = Returns x -> nullish v = false.
Proof. destruct v; cbn; intros H; try discriminate; reflexivity. Qed.

(** The props that a destructuring component was called with, when the
    destructured property holds [x]. *)
Lemma destructured_one {A} k (component_body : list value -> outcome A) props x :
  get_property props k = Returns x ->
  destructured [k] component_body props = (component_body [x], props).
Proof.
  intros H. unfold destructured. cbn [map]. rewrite H.
  destruct props; try reflexivity; discriminate.
Qed.

Lemma own_property_set_property fields k v k' :
  own_property (set_property fields k v) k' =
    if String.eqb k k' then Some v else own_property fields k'.
Proof.
  induction fields as [|[k0 v0] fields IH]; cbn [set_property own_property].
  - destruct (String.eqb k k'); reflexivity.
  - destruct (String.eqb_spec k0 k) as [->|Hne]; cbn [own_property].
    + destruct (String.eqb k k'); reflexivity.
    + rewrite IH. destruct (String.eqb_spec k0 k') as [->|Hne'];
        [|reflexivity].
      destruct (String.eqb_spec k k'); [congruence|reflexivity].
Qed.

Lemma set_property_twice fields k v v' :
  set_property (set_property fields k v) k v' = set_property fields k v'.
Proof.
  induction fields as [|[k0 v0] fields IH]; cbn [set_property].
  - rewrite String.eqb_refl. reflexivity.
  - destruct (String.eqb k0 k) eqn:E; cbn [set_property]; rewrite E; [reflexivity|].
    rewrite IH. reflexivity.
Qed.

Lemma set_property_keys fields k v :
  is_Some (own_property fields k) ->
  map fst (set_property fields k v) = map fst fields.
Proof.
  induction fields as [|[k0 v0] fields IH]; cbn [set_property own_property map fst].
  - intros [? ?]. discriminate.
  - destruct (String.eqb k0 k); [reflexivity|].
    intros Hs. cbn [map fst]. rewrite IH by exact Hs. reflexivity.
Qed.

Lemma truthy_not_nullish v : truthy_value v = true -> nullish v = false.
Proof. destruct v; cbn; intros H; try discriminate; reflexivity. Qed.

End ValueFacts.

(** * More about [EventEmitter] and [globalEmitter] *)

Module EventEmitterMore.
Import EventEmitter EventEmitterFacts EventEmitterClaims CallbackFunctions.

Lemma run_app steps more : forall st, run (steps ++ more) st = run more (run steps st).
Proof.
  induction steps as [|s steps IH]; intros st; [reflexivity|].
  cbn [app run]. destruct (apply s st.1). apply IH.
Qed.

Lemma run_registrations steps : forall st, exists regs, (run steps st).2 = st.2 ++ regs.
Proof.
  induction steps as [|s steps IH]; intros st.
  - exists []. cbn [run]. rewrite app_nil_r. reflexivity.
  - cbn [run]. destruct (apply s st.1) as [this' regs'].
    destruct (IH (this', st.2 ++ regs')) as [regs Hr].
    exists (regs' ++ regs). rewrite Hr. cbn [snd]. rewrite app_assoc. reflexivity.
Qed.

(** X4.  [EventEmitter] has no method to unsubscribe, and its own code never
    drops a listener: as long as no callback calls back into the instance or
    edits its [events], whatever calls of [on] and [emit] follow a history,
    the listeners that an event had before are still its first listeners, in
    the same order, afterwards. *)
Theorem listeners_only_grow (steps more : list step) (event : string) :
  let before := (run steps (new, [])).1 in
  let later := (run (steps ++ more) (new, [])).1 in
  listeners before event `prefix_of` listeners later event.
Proof.
  intros before later. unfold before, later. rewrite run_app.
  set (st := run steps (new, [])).
  assert (Hc : consistent st) by (apply consistent_run, consistent_new).
  assert (Hc' : consistent (run more st)) by (apply consistent_run, Hc).
  rewrite (consistent_listeners _ _ Hc), (consistent_listeners _ _ Hc').
  destruct (run_registrations more st) as [regs ->].
  rewrite registered_app. eexists. reflexivity.
Qed.



Lemma Receiver_effect_listeners setMsg emitter :
  listeners (Receiver_effect setMsg emitter).2 "newMessage" =
    listeners emitter "newMessage" ++ [setMsg].
Proof.
  unfold Receiver_effect. rewrite on_returns by (left; reflexivity).
  unfold listeners at 1. cbn [snd events]. rewrite lookup_insert_eq. reflexivity.
Qed.

(** X6.  Every [Receiver] that was ever mounted stays subscribed to
    [globalEmitter]: its effect subscribes and nothing in the file
    unsubscribes.  After the effects of receivers with setters
    [setMsg1 .. setMsgn] have run, in that order, on an emitter, the
    listeners of ["newMessage"] are those it had, followed by
    [setMsg1 .. setMsgn]; and when none of these listeners calls back into
    the emitter or edits its [events], [Sender]'s [sendMessage] calls all of
    them in that order with ["Hello from Sender!"], up to and including the
    first that throws. *)
Theorem Receivers_stay_subscribed (setMsgs : list callback) (emitter : t) :
  let mounted :=
    fold_left (fun emitter setMsg => (Receiver_effect setMsg emitter).2)
      setMsgs emitter in
  let all := listeners emitter "newMessage" ++ setMsgs in
  listeners mounted "newMessage" = all
  /\ invoked (Sender_sendMessage mounted) =
       map (fun c => {| callee := c; argument := VStr "Hello from Sender!" |})
         (reached all (VStr "Hello from Sender!")).
Proof.
  intros mounted all.
  assert (Hl : listeners mounted "newMessage" = all).
  { unfold mounted, all. clear. revert emitter.
    induction setMsgs as [|setMsg setMsgs IH]; intros emitter; cbn [fold_left].
    - rewrite app_nil_r. reflexivity.
    - rewrite IH, Receiver_effect_listeners, <- app_assoc. reflexivity. }
  split; [exact Hl|].
  unfold Sender_sendMessage, invoked, emit, index. unfold listeners in Hl.
  destruct (events mounted !! "newMessage") as [l|] eqn:E; cbn in Hl.
  - rewrite Hl. pose proof (forEach_reached all (VStr "Hello from Sender!")) as Hf.
    destruct (forEach all (VStr "Hello from Sender!")). exact Hf.
  - rewrite <- Hl. reflexivity.
Qed.

End EventEmitterMore.

(** * The mediator *)

Module MediatorFacts.
Import Mediator.

Lemma send_after `{ObjectPrototype} event data this : (send event data this).2 = this.
Proof. unfold send. destruct (index (handlers this) event); reflexivity. Qed.

(** What a history leaves under [event]: the handler registered last. *)
Lemma run_handlers `{ObjectPrototype} steps event : forall this m,
  run steps this = Some m ->
  handlers m !! event = last_registered event steps (handlers this !! event).
Proof.
  induction steps as [|[event' handler|event' data] steps IH]; intros this m Hr.
  - injection Hr as <-. reflexivity.
  - cbn [run] in Hr. unfold register in Hr.
    destruct (String.eqb event' "__proto__"); [discriminate|].
    cbn [mbind option_bind] in Hr. rewrite (IH _ _ Hr). cbn [handlers last_registered].
    destruct (String.eqb_spec event' event) as [->|Hne].
    + rewrite lookup_insert_eq. reflexivity.
    + rewrite lookup_insert_ne by exact Hne. reflexivity.
  - cbn [run] in Hr. rewrite send_after in Hr. apply (IH _ _ Hr).
Qed.

(** X7.  [Mediator] keeps one handler per event, the one registered last.
    For handlers that neither call back into the mediator nor write to
    [this.handlers] (the object they are called on), and after any history
    of [register] and [send] calls on a new mediator in which no handler
    was registered under [__proto__]: if [handler] is what
    the latest [register(event, _)] gave, [send(event, data)] invokes
    [handler], once, with [data], and no handler registered before it,
    completes as that call does, and leaves the mediator unchanged; if
    nothing was registered for [event], [send(event, data)] invokes no
    handler and leaves the mediator unchanged, and it returns when
    [Object.prototype] does not define [event]. *)
Theorem Mediator_last_registration_wins `{ObjectPrototype}
    (steps : list step) (m : t) (event : string) (data : value) :
  run steps new = Some m ->
  match last_registered event steps None with
  | Some handler =>
      send event data m =
        (_ ← handler data; mret tt, [ {| callee := handler; argument := data |} ], m)
  | None =>
      (send event data m).1.2 = []
      /\ (send event data m).2 = m
      /\ (inherited event = false -> send event data m = (Returns tt, [], m))
  end.
Proof.
  intros Hr. pose proof (run_handlers steps event new m Hr) as Hh.
  cbn [new handlers] in Hh. rewrite lookup_empty in Hh.
  unfold send, index. rewrite Hh.
  destruct (last_registered event steps None) as [handler|]; [reflexivity|].
  destruct (inherited event); repeat split; intros; discriminate.
Qed.

Lemma Mediator_last_registration_wins_witness :
  let P : ObjectPrototype := fun _ _ => Throws TypeError in
  let first : callback := fun _ => Throws (Thrown (VStr "first")) in
  let second : callback := fun user => Returns user in
  let m := {| handlers := <["login" := second]> (<["login" := first]> ∅) |} in
  @send P "login" (VStr "Avi") m =
    (Returns tt, [ {| callee := second; argument := VStr "Avi" |} ], m).
Proof.
  intros P first second m.
  exact (@Mediator_last_registration_wins P
           [Register "login" first; Send "logout" VNull; Register "login" second]
           m "login" (VStr "Avi") eq_refl).
Defined.

End MediatorFacts.

(** * Sequences of clicks on the counter *)

Module CounterFacts.
Import Binary64 UseStateUseReducer CounterWithUseReducer.
Local Open Scope Z_scope.

Lemma dispatch_tally `{Coercions} (clicks : list button) : forall n : Z,
  Z.abs n + Z.of_nat (length clicks) <= 2 ^ 53 ->
  dispatch_all (map click clicks) (VObject [("count"%string, VNum n)]) =
    Returns (VObject [("count"%string, VNum (tally clicks n))]).
Proof.
  induction clicks as [|b clicks IH]; intros n Hn; [reflexivity|].
  cbn [length] in Hn. rewrite Nat2Z.inj_succ in Hn.
  cbn [map dispatch_all tally].
  destruct b; unfold click, action_of, reducer; cbn -[arith dispatch_all tally];
    cbn [arith].
  - rewrite number_plus_one by lia. cbn [mbind outcome_bind mret outcome_ret].
    apply IH. lia.
  - rewrite number_minus_one by lia. cbn [mbind outcome_bind mret outcome_ret].
    apply IH. lia.
  - apply IH. cbn. lia.
Qed.

(** X8.  The counter of [CounterWithUseReducer] counts exactly.  Started
    from [{ count: n }], any sequence of clicks on Increment, Decrement and
    Reset whose length, added to the magnitude of [n], does not exceed
    [2 ^ 53] never throws and leaves [{ count: c }], where [c] is the tally
    of the clicks in the integers: one up, one down, or back to zero.  From
    [initialState] that is every sequence of at most [2 ^ 53] clicks. *)
Theorem dispatch_counts_exactly `{Coercions} (clicks : list button) (n : Z) :
  Z.abs n + Z.of_nat (length clicks) <= 2 ^ 53 ->
  dispatch_all (map click clicks) (VObject [("count"%string, VNum n)]) =
    Returns (VObject [("count"%string, VNum (tally clicks n))]).
Proof. apply dispatch_tally. Qed.

Lemma dispatch_counts_exactly_witness :
  let C : Coercions := fun _ _ _ => Throws TypeError in
  @dispatch_all C
    (map click [ClickIncrement; ClickIncrement; ClickReset; ClickDecrement;
                ClickDecrement; ClickIncrement])
    initialState
  = Returns (VObject [("count"%string, VNum (-1))]).
Proof.
  intros C.
  apply (@dispatch_counts_exactly C
           [ClickIncrement; ClickIncrement; ClickReset; ClickDecrement;
            ClickDecrement; ClickIncrement] 0).
  vm_compute. discriminate.
Defined.

End CounterFacts.

(** * The counters kept with [useState] *)

Module CounterWithUseStateFacts.
Import Binary64 UseStateUseReducer CounterWithUseReducer CounterWithUseState.
Local Open Scope Z_scope.

(** X9.  The counters kept with [useState] count exactly, and show what the
    counter kept with [useReducer] shows.  Started from [n], any sequence of
    clicks on Increment and Decrement whose length, added to the magnitude
    of [n], does not exceed [2 ^ 53] never throws and leaves the tally of
    the clicks in the integers, which is the [count] that the reducer
    reaches from [{ count: n }] when the buttons with the same labels
    dispatch their actions. *)
Theorem useState_counter_agrees `{Coercions}
    (clicks : list CounterWithUseState.button) (n : Z) :
  Z.abs n + Z.of_nat (length clicks) <= 2 ^ 53 ->
  click_all clicks (VNum n) = Returns (VNum (tally (map as_dispatch clicks) n))
  /\ (state ← dispatch_all (map CounterWithUseReducer.click (map as_dispatch clicks))
                (VObject [("count"%string, VNum n)]);
      get_property state "count") = click_all clicks (VNum n).
Proof.
  intros Hn.
  assert (E : click_all clicks (VNum n) =
              Returns (VNum (tally (map as_dispatch clicks) n))).
  { revert n Hn. induction clicks as [|b clicks IH]; intros n Hn; [reflexivity|].
    cbn [length] in Hn. rewrite Nat2Z.inj_succ in Hn.
    cbn [map click_all tally]. destruct b; cbn [CounterWithUseState.click arith as_dispatch].
    - rewrite number_plus_one by lia. cbn [mbind outcome_bind]. apply IH. lia.
    - rewrite number_minus_one by lia. cbn [mbind outcome_bind]. apply IH. lia. }
  split; [exact E|].
  rewrite E, CounterFacts.dispatch_tally by (rewrite !length_map; exact Hn).
  reflexivity.
Qed.

Lemma useState_counter_agrees_witness :
  let C : Coercions := fun _ _ _ => Throws TypeError in
  @click_all C [IncrementButton; IncrementButton; DecrementButton] (VNum 0) =
    Returns (VNum 1).
Proof.
  intros C.
  apply (proj1 (@useState_counter_agrees C
                  [IncrementButton; IncrementButton; DecrementButton] 0
                  ltac:(vm_compute; discriminate))).
Defined.

End CounterWithUseStateFacts.

(** * [fib] and the Fibonacci numbers *)

Module FibonacciFacts.
Import Binary64Exact UseCallbackVsUseMemo.
Local Open Scope Z_scope.

Lemma Fibonacci_step n : Fibonacci (S (S n)) = Fibonacci (S n) + Fibonacci n.
Proof. reflexivity. Qed.

Lemma Fibonacci_pair_spec n : Fibonacci_pair n = (Fibonacci n, Fibonacci (S n)).
Proof.
  induction n as [|n IH]; [reflexivity|].
  cbn [Fibonacci_pair]. rewrite IH, Fibonacci_step. f_equal. lia.
Qed.

Lemma Fibonacci_nonneg n : 0 <= Fibonacci n /\ 0 <= Fibonacci (S n).
Proof.
  induction n as [|n [IH1 IH2]]; [cbn; lia|].
  rewrite Fibonacci_step. lia.
Qed.

Lemma Fibonacci_mono n m : (n <= m)%nat -> Fibonacci n <= Fibonacci m.
Proof.
  induction 1 as [|m _ IH]; [lia|].
  destruct m as [|m]; [cbn in *; lia|].
  rewrite Fibonacci_step. pose proof (Fibonacci_nonneg m). lia.
Qed.

Lemma Fibonacci_78 : Fibonacci 78 = 8944394323791464 /\ Fibonacci 77 = 5527939700884757.
Proof.
  pose proof (Fibonacci_pair_spec 77) as H.
  assert (E : Fibonacci_pair 77 = (5527939700884757, 8944394323791464))
    by (vm_compute; reflexivity).
  rewrite E in H. apply pair_equal_spec in H. destruct H as [H1 H2].
  split; symmetry; [exact H2 | exact H1].
Qed.

Lemma fib_exact fuel : forall n,
  - 2 ^ 53 <= n <= 77 -> (Z.to_nat n < fuel)%nat ->
  fib fuel n = Some (Fibonacci (S (Z.to_nat n))).
Proof.
  induction fuel as [|fuel IH]; intros n Hn Hf; [lia|].
  cbn [fib]. rewrite number_le_one by lia.
  destruct (Z.leb_spec n 1) as [Hle|Hgt].
  - assert (Z.to_nat n = 0 \/ Z.to_nat n = 1)%nat as [-> | ->] by lia; reflexivity.
  - rewrite (number_arith_exact Minus n 1), (number_arith_exact Minus n 2) by lia.
    cbn [mbind option_bind].
    rewrite !IH by lia.
    cbn [mbind option_bind].
    destruct (Z.to_nat n) as [|[|k]] eqn:E; try lia.
    replace (Z.to_nat (n - 1)) with (S k) by lia.
    replace (Z.to_nat (n - 2)) with k by lia.
    pose proof (Fibonacci_nonneg k) as [H0 H1].
    pose proof (Fibonacci_nonneg (S k)) as [_ H2].
    pose proof (Fibonacci_mono (S (S (S k))) 78 ltac:(lia)) as Hm.
    destruct Fibonacci_78 as [E78 _]. rewrite E78 in Hm.
    rewrite (Fibonacci_step (S k)) in *.
    rewrite number_arith_exact; [reflexivity| | |]; lia.
Qed.

(** X10.  [fib], the function that [ExpensiveCalculation] memoizes: for every
    integer Number [n <= 1], negative ones included, [fib(n)] is [1]; and for
    [0 <= n <= 77], [fib(n)] returns, within [n + 1] nested calls, the
    Fibonacci number of index [n + 1] (counting 0, 1, 1, 2, 3, 5, ...),
    exactly, although it is computed in binary64 arithmetic. *)
Theorem fib_Fibonacci (fuel : nat) (n : Z) :
  - 2 ^ 53 <= n <= 77 -> (Z.to_nat n < fuel)%nat ->
  (n <= 1 -> fib fuel n = Some 1)
  /\ (0 <= n -> fib fuel n = Some (Fibonacci (Z.to_nat n + 1))).
Proof.
  intros Hn Hf. rewrite (fib_exact fuel n Hn Hf). split.
  - intros Hle.
    assert (Z.to_nat n = 0 \/ Z.to_nat n = 1)%nat as [-> | ->] by lia; reflexivity.
  - intros _. rewrite Nat.add_1_r. reflexivity.
Qed.

Lemma fib_Fibonacci_witness :
  fib 11 10 = Some 89 /\ fib 11 (-3) = Some 1.
Proof.
  split.
  - apply (proj2 (fib_Fibonacci 11 10 ltac:(lia) ltac:(lia))). lia.
  - apply (proj1 (fib_Fibonacci 11 (-3) ltac:(lia) ltac:(lia))). lia.
Defined.

(** Beyond 77 the sums leave the integers that binary64 holds exactly:
    [fib(78)] is one less than the Fibonacci number of index 79. *)
Lemma fib_78_rounds fuel :
  (78 < fuel)%nat ->
  fib fuel 78 = Some 14472334024676220
  /\ Fibonacci 79 = 14472334024676221.
Proof.
  intros Hf. destruct Fibonacci_78 as [E78 E77]. split.
  - destruct fuel as [|fuel]; [lia|].
    cbn [fib]. rewrite number_le_one by lia.
    change (78 <=? 1) with false. cbn iota.
    rewrite (number_arith_exact Minus 78 1), (number_arith_exact Minus 78 2) by lia.
    cbn [mbind option_bind].
    rewrite !fib_exact by lia.
    change (Z.to_nat (78 - 1)) with 77%nat. change (Z.to_nat (78 - 2)) with 76%nat.
    cbn [mbind option_bind]. rewrite E78, E77. vm_compute. reflexivity.
  - rewrite Fibonacci_step, E78, E77. reflexivity.
Qed.

End FibonacciFacts.

(** * Filtering a list by a search text *)

Module FilteredListFacts.
Import FilteredList.

Lemma append_cons c (t b : string) : (String c t ++ b = String c (t ++ b))%string.
Proof. reflexivity. Qed.

Lemma prefix_spec t : forall s,
  String.prefix t s = true <-> exists b, s = (t ++ b)%string.
Proof.
  induction t as [|c t IH]; intros s.
  - split; [intros _; exists s; reflexivity | intros _; destruct s; reflexivity].
  - destruct s as [|c' s]; cbn [String.prefix].
    + split; [discriminate | intros [b Hb]; rewrite append_cons in Hb; discriminate].
    + destruct (Ascii.ascii_dec c c') as [->|Hne].
      * rewrite IH. split; intros [b Hb]; exists b; rewrite append_cons in *; congruence.
      * split; [discriminate | intros [b Hb]; rewrite append_cons in Hb; congruence].
Qed.

Lemma includes_unfold s t :
  includes s t =
    String.prefix t s
    || match s with
       | EmptyString => false
       | String _ rest => includes rest t
       end.
Proof. destruct s; reflexivity. Qed.

Lemma includes_spec s t :
  includes s t = true <-> exists a b, s = (a ++ t ++ b)%string.
Proof.
  split.
  - induction s as [|c s IH]; cbn [includes]; intros H%orb_prop.
    + destruct H as [H|H]; [|discriminate].
      apply prefix_spec in H as [b Hb]. exists EmptyString, b. exact Hb.
    + destruct H as [H|H].
      * apply prefix_spec in H as [b Hb]. exists EmptyString, b. exact Hb.
      * destruct (IH H) as (a & b & ->). exists (String c a), b. reflexivity.
  - intros (a & b & ->). induction a as [|c a IH].
    + change (includes (t ++ b) t = true). rewrite includes_unfold.
      apply orb_true_intro. left. apply prefix_spec. exists b. reflexivity.
    + rewrite append_cons. cbn [includes]. rewrite IH. apply orb_true_r.
Qed.

Lemma includes_empty s : includes s EmptyString = true.
Proof. destruct s; reflexivity. Qed.

Lemma string_app_assoc (a b c : string) : ((a ++ b) ++ c = a ++ b ++ c)%string.
Proof.
  induction a as [|x a IH]; [reflexivity|].
  rewrite !append_cons, IH. reflexivity.
Qed.

Lemma includes_trans s t u :
  includes s t = true -> includes t u = true -> includes s u = true.
Proof.
  intros (a & b & ->)%includes_spec (c & d & ->)%includes_spec.
  apply includes_spec. exists (a ++ c)%string, (d ++ b)%string.
  rewrite !string_app_assoc. reflexivity.
Qed.

Lemma filter_elements_strings (items : list string) t :
  filter_elements (fun i => includes_call i t) (map VStr items) =
    Returns (map VStr (List.filter (fun s => includes s t) items)).
Proof.
  induction items as [|s items IH]; [reflexivity|].
  cbn [map filter_elements includes_call List.filter].
  cbn [mbind outcome_bind mret outcome_ret]. rewrite IH.
  cbn [mbind outcome_bind mret outcome_ret].
  destruct (includes s t); reflexivity.
Qed.

Lemma filter_sublist {A} (p q : A -> bool) (l : list A) :
  (forall x, p x = true -> q x = true) ->
  List.filter p l `sublist_of` List.filter q l.
Proof.
  intros Hpq. induction l as [|x l IH]; cbn [List.filter]; [constructor|].
  destruct (p x) eqn:Ep.
  - rewrite (Hpq x Ep). constructor. exact IH.
  - destruct (q x); [constructor|]; exact IH.
Qed.

Lemma filter_all {A} (p : A -> bool) (l : list A) :
  (forall x, p x = true) -> List.filter p l = l.
Proof.
  intros Hp. induction l as [|x l IH]; cbn [List.filter]; [reflexivity|].
  rewrite Hp, IH. reflexivity.
Qed.

Lemma filter_twice {A} (p : A -> bool) (l : list A) :
  List.filter p (List.filter p l) = List.filter p l.
Proof.
  induction l as [|x l IH]; cbn [List.filter]; [reflexivity|].
  destruct (p x) eqn:Ep; [|exact IH]. cbn [List.filter]. rewrite Ep, IH. reflexivity.
Qed.

(** X11.  The list that [List] shows, for items that are strings and a
    search text [filter]: the items in which [filter] occurs, in their
    original order.  The empty search text keeps every item; a longer search
    text, one in which [filter] occurs, never shows an item that [filter]
    hides; and filtering what is shown again by the same text changes
    nothing. *)
Theorem filteredItems_narrows (items : list string) (filter : string) :
  let shown f := List.filter (fun s => includes s f) items in
  filteredItems (VArray (map VStr items)) filter =
    Returns (VArray (map VStr (shown filter)))
  /\ shown filter `sublist_of` items
  /\ (forall s, In s (shown filter) <->
        In s items /\ exists a b, s = (a ++ filter ++ b)%string)
  /\ shown EmptyString = items
  /\ (forall longer, includes longer filter = true ->
        shown longer `sublist_of` shown filter)
  /\ filteredItems (VArray (map VStr (shown filter))) filter =
       Returns (VArray (map VStr (shown filter))).
Proof.
  intros shown. unfold filteredItems, array_filter.
  rewrite !filter_elements_strings. unfold shown.
  split; [reflexivity|]. split; [|split; [|split; [|split]]].
  - rewrite <- (filter_all (fun _ => true) items) at 2 by reflexivity.
    apply filter_sublist. reflexivity.
  - intros s. rewrite filter_In, includes_spec. reflexivity.
  - apply filter_all. apply includes_empty.
  - intros longer Hl. apply filter_sublist. intros s Hs.
    exact (includes_trans _ _ _ Hs Hl).
  - rewrite filter_twice. reflexivity.
Qed.

(** Items that are not strings: an array is searched for an element equal to
    the text, and any other item makes the call throw. *)
Lemma filteredItems_other_items :
  filteredItems (VArray [VArray [VStr "ab"]; VStr "abc"]) "ab" =
    Returns (VArray [VArray [VStr "ab"]; VStr "abc"])
  /\ filteredItems (VArray [VStr "abc"; VNum 1]) "ab" = Throws TypeError
  /\ filteredItems VUndefined "ab" = Throws TypeError.
Proof. repeat split. Qed.

End FilteredListFacts.

(** * Keys of list rows *)

Module KeysInListsFacts.
Import Component KeysInLists ValueFacts.

Lemma map_indexed_BadList items : forall index,
  map_indexed (fun item index =>
      mret (Element "li" [("key"%string, VNum (Z.of_nat index))] [Expr item]))
    index items
  = Returns (imap (fun i item => BadList_row (index + i) item) items).
Proof.
  induction items as [|item items IH]; intros index; [reflexivity|].
  cbn [map_indexed imap]. cbn [mbind outcome_bind mret outcome_ret].
  rewrite IH. cbn [mbind outcome_bind mret outcome_ret].
  rewrite Nat.add_0_r. do 2 f_equal.
  apply imap_ext. intros i x _. cbn. f_equal. lia.
Qed.

Lemma map_elements_GoodList items :
  map_elements (fun item =>
      id ← get_property item "id";
      name ← get_property item "name";
      mret (Element "li" [("key"%string, id)] [Expr name])) items
  = if forallb (fun item => negb (nullish item)) items
    then Returns (map GoodList_row items)
    else Throws TypeError.
Proof.
  induction items as [|item items IH]; [reflexivity|].
  cbn [map_elements forallb map].
  destruct (nullish item) eqn:E.
  - rewrite !(get_property_nullish _ _ E). reflexivity.
  - rewrite !(get_property_field _ _ E). cbn [mbind outcome_bind mret outcome_ret negb andb].
    rewrite IH. destruct (forallb _ items); reflexivity.
Qed.

Lemma forallb_defined items :
  Forall (fun item => nullish item = false) items ->
  forallb (fun item => negb (nullish item)) items = true.
Proof.
  induction 1 as [|x l Hx _ IH]; [reflexivity|].
  cbn [forallb]. rewrite Hx, IH. reflexivity.
Qed.

Lemma forallb_nullish items :
  Exists (fun item => nullish item = true) items ->
  forallb (fun item => negb (nullish item)) items = false.
Proof.
  induction 1 as [x l Hx|x l _ IH]; cbn [forallb].
  - rewrite Hx. reflexivity.
  - rewrite IH. apply andb_false_r.
Qed.

(** X12.  [BadList] keys each row by its position: whatever the items are,
    the row at index [i] has key [i] and shows the item at index [i].  So the
    key of an item's row changes whenever an item is inserted or removed
    before it, and the same keys are handed out again to other items. *)
Theorem BadList_keys_are_positions (props : value) (items : list value) :
  get_property props "items" = Returns (VArray items) ->
  BadList props =
    (Returns (Element "ul" [] [Nodes (imap BadList_row items)]), props)
  /\ (forall i item, items !! i = Some item ->
        rows (BadList props) !! i = Some (BadList_row i item))
  /\ (forall before item after, items = before ++ item :: after ->
        rows (BadList props) !! length before
          = Some (BadList_row (length before) item)).
Proof.
  intros Hp.
  assert (E : BadList props =
            (Returns (Element "ul" [] [Nodes (imap BadList_row items)]), props)).
  { unfold BadList. rewrite (destructured_one _ _ _ _ Hp). cbn [nth array_map_indexed].
    rewrite map_indexed_BadList. reflexivity. }
  assert (Hrows : forall i item, items !! i = Some item ->
            rows (BadList props) !! i = Some (BadList_row i item)).
  { intros i item Hi. rewrite E. unfold rows. cbn [fst].
    rewrite list_lookup_imap, Hi. reflexivity. }
  split; [exact E|]. split; [exact Hrows|].
  intros before item after ->. apply Hrows.
  rewrite lookup_app_r by lia. rewrite Nat.sub_diag. reflexivity.
Qed.

Lemma BadList_keys_are_positions_witness :
  let a := VStr "A" in
  let b := VStr "B" in
  rows (BadList (VObject [("items"%string, VArray [a; b])])) !! 1%nat
    = Some (BadList_row 1 b)
  /\ rows (BadList (VObject [("items"%string, VArray [b])])) !! 0%nat
    = Some (BadList_row 0 b).
Proof.
  intros a b. split.
  - apply (proj1 (proj2 (BadList_keys_are_positions
             (VObject [("items"%string, VArray [a; b])]) [a; b] eq_refl))).
    reflexivity.
  - apply (proj1 (proj2 (BadList_keys_are_positions
             (VObject [("items"%string, VArray [b])]) [b] eq_refl))).
    reflexivity.
Defined.

(** X13.  [GoodList] keys each row by the item it shows: when no item is
    [undefined] or [null], the rows are, in item order, one row per item
    with key [item.id] and content [item.name], so that the row of an item
    is the same wherever the item stands in the list; when some item is
    [undefined] or [null], or [items] is not an array, the call throws a
    TypeError. *)
Theorem GoodList_keys_follow_items (props : value) (items : list value) :
  get_property props "items" = Returns (VArray items) ->
  (Forall (fun item => nullish item = false) items ->
     GoodList props =
       (Returns (Element "ul" [] [Nodes (map GoodList_row items)]), props)
     /\ forall before item after, items = before ++ item :: after ->
          rows (GoodList props) !! length before = Some (GoodList_row item))
  /\ (Exists (fun item => nullish item = true) items ->
      GoodList props = (Throws TypeError, props)).
Proof.
  intros Hp.
  assert (E : GoodList props =
            (lis ← (if forallb (fun item => negb (nullish item)) items
                    then Returns (map GoodList_row items)
                    else Throws TypeError);
             mret (Element "ul" [] [Nodes lis]), props)).
  { unfold GoodList. rewrite (destructured_one _ _ _ _ Hp). cbn [nth array_map].
    rewrite map_elements_GoodList. reflexivity. }
  split.
  - intros Hall.
    assert (Hf : forallb (fun item => negb (nullish item)) items = true)
      by (apply forallb_defined; exact Hall).
    rewrite Hf in E. split; [exact E|].
    intros before item after ->. rewrite E. unfold rows. cbn.
    rewrite list_lookup_fmap.
    rewrite lookup_app_r by lia. rewrite Nat.sub_diag. reflexivity.
  - intros Hex.
    assert (Hf : forallb (fun item => negb (nullish item)) items = false)
      by (apply forallb_nullish; exact Hex).
    rewrite Hf in E. exact E.
Qed.

Lemma GoodList_keys_follow_items_witness :
  let a := VObject [("id", VNum 1); ("name", VStr "A")]%string in
  let b := VObject [("id", VNum 2); ("name", VStr "B")]%string in
  rows (GoodList (VObject [("items"%string, VArray [a; b])])) !! 1%nat
    = Some (Element "li" [("key"%string, VNum 2)] [Expr (VStr "B")])
  /\ rows (GoodList (VObject [("items"%string, VArray [b; a])])) !! 0%nat
    = Some (Element "li" [("key"%string, VNum 2)] [Expr (VStr "B")]).
Proof.
  intros a b. split.
  - apply (proj2 (proj1 (GoodList_keys_follow_items
             (VObject [("items"%string, VArray [a; b])]) [a; b] eq_refl)
             ltac:(repeat constructor)) [a] b [] eq_refl).
  - apply (proj2 (proj1 (GoodList_keys_follow_items
             (VObject [("items"%string, VArray [b; a])]) [b; a] eq_refl)
             ltac:(repeat constructor)) [] b [a] eq_refl).
Defined.

End KeysInListsFacts.

(** * Updating one field of the profile *)

Module StateSplitsFacts.
Import StateSplits ValueFacts.

(** X14.  The [reducer] of [ProfileWithReducer] changes the city and nothing
    else.  On a state object and an action [{ type: "updateCity", payload }]
    it returns an object whose [city] is [payload] and whose other
    properties are those of the state, with their values; when the state has
    a [city] already, the result has the same property names in the same
    order.  Updating twice is updating with the later payload.  An action of
    any other [type] returns the state itself, and an action that is
    [undefined] or [null] throws a TypeError.  The updater of [ProfileGood]'s
    [updateCity] does to every previous state what the reducer does with the
    action of the "Move to Mumbai" button. *)
Theorem updateCity_changes_only_city
    (fields : list (string * value)) (payload payload' : value) :
  let update p := VObject [("type", VStr "updateCity"); ("payload", p)]%string in
  (exists fields',
      reducer (VObject fields) (update payload) = Returns (VObject fields')
      /\ own_property fields' "city" = Some payload
      /\ (forall k, k <> "city"%string -> own_property fields' k = own_property fields k)
      /\ (is_Some (own_property fields "city") -> map fst fields' = map fst fields))
  /\ (s ← reducer (VObject fields) (update payload); reducer s (update payload')) =
       reducer (VObject fields) (update payload')
  /\ (forall state action type,
        get_property action "type" = Returns type -> type <> VStr "updateCity" ->
        reducer state action = Returns state)
  /\ (forall state action, nullish action = true ->
        reducer state action = Throws TypeError)
  /\ (forall prev, Returns (updateCity prev) = reducer prev move_to_Mumbai).
Proof.
  intros update. split; [|split; [|split; [|split]]].
  - exists (set_property fields "city" payload). split; [reflexivity|].
    split; [|split].
    + rewrite own_property_set_property. reflexivity.
    + intros k Hk. rewrite own_property_set_property.
      destruct (String.eqb_spec "city" k); [congruence|reflexivity].
    + apply set_property_keys.
  - unfold reducer, update. cbn. rewrite set_property_twice. reflexivity.
  - intros state action type Ht Hne. unfold reducer. rewrite Ht.
    cbn [mbind outcome_bind]. destruct type; try reflexivity.
    cbn [is_string]. destruct (String.eqb_spec s "updateCity"); [congruence|reflexivity].
  - intros state action Hn. unfold reducer.
    destruct action; try discriminate; reflexivity.
  - reflexivity.
Qed.

Lemma reducer_moves_to_Mumbai :
  reducer initial_profile move_to_Mumbai =
    Returns (VObject [("name", VStr "Alice"); ("age", VNum 25);
                      ("city", VStr "Mumbai")]%string).
Proof. reflexivity. Qed.

End StateSplitsFacts.

(** * Selectors *)

Module SelectorsFacts.
Import Selectors ValueFacts.

(** X15.  What the selector-based [mapStateToProps2] and [mapStateToProps]
    compute depends on [state.user.name] alone.  Setting any property of the
    state other than [user] ([txn], say), or any property of [state.user]
    other than [name], leaves their result as it was, exceptions included;
    whereas the result of [mapStateToProps1] carries the new [txn].  The two
    selector-based functions return the same value under the names
    [userName] and [name], and throw a TypeError exactly when the state or
    its [user] is [undefined] or [null]. *)
Theorem selectors_ignore_unrelated_state
    (fields user : list (string * value)) (k : string) (v : value) :
  (k <> "user"%string ->
     mapStateToProps2 (VObject (set_property fields k v)) =
       mapStateToProps2 (VObject fields)
     /\ mapStateToProps (VObject (set_property fields k v)) =
          mapStateToProps (VObject fields))
  /\ (k <> "name"%string ->
      mapStateToProps2 (VObject (set_property fields "user" (VObject (set_property user k v)))) =
        mapStateToProps2 (VObject (set_property fields "user" (VObject user))))
  /\ mapStateToProps1 (VObject (set_property fields "txn" v)) =
       Returns (VObject [("user", field (VObject fields) "user");
                         ("transactions", v)]%string)
  /\ (forall state,
        mapStateToProps2 state = (name ← selectUserName state;
                                  mret (VObject [("userName"%string, name)]))
        /\ mapStateToProps state = (name ← selectUserName state;
                                    mret (VObject [("name"%string, name)]))
        /\ (returns (selectUserName state) = false <->
            nullish state = true \/ nullish (field state "user") = true)).
Proof.
  split; [|split; [|split]].
  - intros Hk. unfold mapStateToProps2, mapStateToProps, selectUserName, selectUser.
    cbn [get_property]. rewrite own_property_set_property.
    destruct (String.eqb_spec k "user"); [congruence|]. split; reflexivity.
  - intros Hk. unfold mapStateToProps2, selectUserName, selectUser.
    cbn [get_property]. rewrite !own_property_set_property. cbn.
    rewrite own_property_set_property.
    destruct (String.eqb_spec k "name"); [congruence|reflexivity].
  - unfold mapStateToProps1. cbn [get_property].
    rewrite !own_property_set_property. cbn. reflexivity.
  - intros state. split; [reflexivity|]. split; [reflexivity|].
    unfold selectUserName, selectUser.
    destruct state as [| |b|z|s|sf|items]; cbn;
      try (destruct (own_property sf "user") as [[| |?|?|?|?|?]|]; cbn);
      intuition (discriminate || congruence).
Qed.

End SelectorsFacts.

(** * Guarded reads *)

Module GuardsFacts.
Import Component Guards ValueFacts.

(** X16.  The guard [user ? ... : ...] protects the read of [user.name]:
    [Dashboard] and [UserProfile] return for every value of [user], where
    [useUserName] and [Profile] throw on [null].  For every falsy [user]
    ([null] while the login or the fetch is pending, but also [undefined],
    [0], the empty string and [false]) they show ["Guest"] and ["Loading..."]; for every
    other value they show [user.name]. *)
Theorem guarded_reads_return (user : value) :
  Dashboard user =
    Returns (Element "h1" []
               [Text "Welcome ";
                Expr (if truthy_value user then field user "name" else VStr "Guest")])
  /\ UserProfile user =
       Returns (Element "div" []
                  [Element "h2" [] [Text "User Profile"];
                   if truthy_value user
                   then Element "p" [] [Expr (field user "name")]
                   else Element "p" [] [Text "Loading..."]])
  /\ AdvancedPatterns.useUserName (Some (VObject [("user"%string, VNull)])) =
       Throws TypeError
  /\ (Profile (VObject [("user"%string, VNull)])).1 = Throws TypeError.
Proof.
  unfold Dashboard, UserProfile.
  destruct (truthy_value user) eqn:E.
  - rewrite (get_property_field _ _ (truthy_not_nullish _ E)).
    repeat split.
  - repeat split.
Qed.

End GuardsFacts.

(** * Prop drilling *)

Module PropDrillingFacts.
Import Component PropDrilling.

(** X17.  The [user] prop arrives unchanged through [Child] and [GrandChild]:
    for every props object, [Child] renders what [GreatGrandChild] renders,
    the heading that shows [props.user]; and [GreatGrandChildFixed] under a
    provider of value [v] renders the heading that [Child] renders for
    [{ user: v }].  [ParentWithContext], however, renders [<Child />]
    without props and never uses [GreatGrandChildFixed]: its heading shows
    [undefined], not the ["Avi"] that [Parent] and [ParentWithComposition]
    show. *)
Theorem drilled_prop_arrives (props v : value) :
  nullish props = false ->
  let heading user := Element "h3" [] [Text "User: "; Expr user] in
  Child props = (Returns (heading (field props "user")), props)
  /\ Child props = GreatGrandChild props
  /\ GreatGrandChildFixed (Some v) = (Child (VObject [("user"%string, v)])).1
  /\ Parent = Returns (heading (VStr "Avi"))
  /\ ParentWithContext = Returns (Nodes [heading VUndefined; Text " "])
  /\ ParentWithComposition =
       Returns (Element "div" [("className"%string, VStr "layout")]
                  [Nodes [heading (VStr "Avi"); Text " "]]).
Proof.
  intros Hn heading.
  assert (E : forall p, nullish p = false ->
            GreatGrandChild p = (Returns (heading (field p "user")), p)).
  { intros p Hp. unfold GreatGrandChild, destructured.
    destruct p; try discriminate; reflexivity. }
  assert (E' : Child props = (Returns (heading (field props "user")), props)).
  { unfold Child, GrandChild, destructured.
    destruct props; try discriminate; reflexivity. }
  split; [exact E'|]. split; [rewrite E', E by exact Hn; reflexivity|].
  repeat split.
Qed.

Lemma drilled_prop_arrives_witness :
  Child (VObject [("user"%string, VNum 7)]) =
    (Returns (Element "h3" [] [Text "User: "; Expr (VNum 7)]),
     VObject [("user"%string, VNum 7)]).
Proof.
  exact (proj1 (drilled_prop_arrives (VObject [("user"%string, VNum 7)]) VNull eq_refl)).
Defined.

End PropDrillingFacts.

(** * Toggling *)

Module ToggleParentFacts.
Import ToggleParent.

(** X18.  [ToggleParent]: after [n] clicks on Toggle, [isOn] is [true]
    exactly when [n] is odd; in particular two clicks restore the state, and
    a toggled state is always a boolean. *)
Theorem toggle_parity (n : nat) :
  Nat.iter n toggle initial = VBool (Nat.odd n)
  /\ Nat.iter (n + 2) toggle initial = Nat.iter n toggle initial.
Proof.
  assert (E : forall k, Nat.iter k toggle initial = VBool (Nat.odd k)).
  { induction k as [|k IH]; [reflexivity|].
    rewrite Nat.iter_succ, IH. unfold toggle. cbn [truthy_value].
    rewrite Nat.odd_succ, <- Nat.negb_odd. reflexivity. }
  split; [apply E|]. rewrite !E. f_equal.
  rewrite Nat.add_comm. cbn [Nat.add]. rewrite !Nat.odd_succ_succ. reflexivity.
Qed.

End ToggleParentFacts.

(** * The context selectors *)

Module ContextSelectorsFacts.
Import Component AdvancedPatterns ContextSelectors ValueFacts.

(** X19.  The context selectors read one property each.  Under a
    [UserProvider] whose state is a [user] object, setting any property of
    [user] other than [name] leaves what [useUserName] returns, and what
    [ShowName] renders, as it was; setting any property other than [theme]
    does the same for [useUserTheme] and [ShowTheme]; and after [name] or
    [theme] is set to [v], the matching selector returns [v]. *)
Theorem context_selectors_read_one_property
    (user : list (string * value)) (setUser v : value) (k : string) :
  let provided u := Some (UserProvider_value (VObject u) setUser) in
  (k <> "name"%string ->
     useUserName (provided (set_property user k v)) = useUserName (provided user)
     /\ ShowName (provided (set_property user k v)) = ShowName (provided user))
  /\ (k <> "theme"%string ->
      useUserTheme (provided (set_property user k v)) = useUserTheme (provided user)
      /\ ShowTheme (provided (set_property user k v)) = ShowTheme (provided user))
  /\ useUserName (provided (set_property user "name" v)) = Returns v
  /\ ShowName (provided (set_property user "name" v)) =
       Returns (Element "h1" [] [Expr v])
  /\ useUserTheme (provided (set_property user "theme" v)) = Returns v
  /\ ShowTheme (provided (set_property user "theme" v)) =
       Returns (Element "p" [] [Text "Theme: "; Expr v]).
Proof.
  intros provided.
  assert (Hn : forall u, useUserName (provided u) =
                         Returns (default VUndefined (own_property u "name")))
    by reflexivity.
  assert (Ht : forall u, useUserTheme (provided u) =
                         Returns (default VUndefined (own_property u "theme")))
    by reflexivity.
  unfold ShowName, ShowTheme. rewrite !Hn, !Ht, !own_property_set_property.
  rewrite !String.eqb_refl.
  split; [|split; [|repeat split]].
  - intros Hk. destruct (String.eqb_spec k "name"); [congruence|]. split; reflexivity.
  - intros Hk. destruct (String.eqb_spec k "theme"); [congruence|]. split; reflexivity.
Qed.

Lemma context_selectors_read_one_property_witness :
  let dark := VObject [("name", VStr "Avi"); ("age", VNum 25); ("theme", VStr "dark")]%string in
  let light := VObject [("name", VStr "Avi"); ("age", VNum 25); ("theme", VStr "light")]%string in
  useUserName (Some (UserProvider_value light VNull)) =
    useUserName (Some (UserProvider_value dark VNull)).
Proof.
  intros dark light.
  apply (proj1 (proj1 (context_selectors_read_one_property
           [("name", VStr "Avi"); ("age", VNum 25); ("theme", VStr "dark")]%string
           VNull (VStr "light") "theme") ltac:(discriminate))).
Defined.

End ContextSelectorsFacts.
